(** * hud: a terminal dashboard for CodePipeline

  A shallow embedding of [src/lib/index.ts]: the status aggregation
  ([colorizedStatus]), one refresh cycle ([fetchPipelines]) seen as a
  machine that consumes the answers of the AWS client and of the rate
  limiter, and the handler of the table's "select item" event.

  Strings are Rocq strings: one [ascii] stands for one UTF-16 code unit
  of the JavaScript string, which is exact on ASCII text. *)

From Stdlib Require Import String Ascii ZArith List Bool Lia.
From stdpp Require Import base option list gmap strings.
Import ListNotations.
Local Open Scope string_scope.

(** ** JavaScript strings *)

Module JsString.

(** The characters appended by [String.prototype.padEnd]: [filler]
    repeated, cut after [k] characters. [cur] is what remains of the
    current copy of [filler]. An empty [filler] pads nothing. *)
Fixpoint fill (k : nat) (cur filler : string) : string :=
  match k with
  | O => ""
  | S k' =>
      match cur with
      | String c rest => String c (fill k' rest filler)
      | EmptyString =>
          match filler with
          | String c rest => String c (fill k' rest filler)
          | EmptyString => ""
          end
      end
  end.

(** [s.padEnd(n, filler)]: [s] itself when it has [n] characters or
    more. *)
Definition padEnd (s : string) (n : nat) (filler : string) : string :=
  s ++ fill (n - String.length s) filler filler.

(** [s.slice(from, to)] for indices within [0 .. ]. *)
Definition slice (s : string) (from to : nat) : string :=
  String.substring from (to - from) s.

(** [s.startsWith(p)]. *)
Definition startsWith (s p : string) : bool := String.prefix p s.

(** [s.split(sep)] for a separator of one character. The result is
    never empty: [("").split(" ")] is [[""]]. *)
Fixpoint split (sep : ascii) (s : string) : list string :=
  match s with
  | EmptyString => [""]
  | String c rest =>
      if Ascii.eqb c sep then "" :: split sep rest
      else match split sep rest with
           | field :: fields => String c field :: fields
           | [] => [String c ""]
           end
  end.

(** [Canonicalize] of a regular expression with the [i] flag and
    without the [u] flag: the upper-case form of the character, except
    that a character outside ASCII never folds onto an ASCII one. For a
    pattern of ASCII letters only the folding of [a-z] matters, which is
    the one kept here. *)
Definition canonicalize (c : ascii) : ascii :=
  let n := nat_of_ascii c in
  if (97 <=? n)%nat && (n <=? 122)%nat then ascii_of_nat (n - 32) else c.

(** Does [s] match [/^pat/i], for a pattern of literal characters? *)
Fixpoint match_prefix_i (pat s : string) : bool :=
  match pat, s with
  | EmptyString, _ => true
  | String _ _, EmptyString => false
  | String p pat', String c s' =>
      Ascii.eqb (canonicalize p) (canonicalize c) && match_prefix_i pat' s'
  end.

(** A template literal prints an absent value as [undefined]. *)
Definition interpolate (v : option string) : string :=
  match v with Some s => s | None => "undefined" end.

End JsString.
Import JsString.

(** ** The insertion-ordered [Set] of JavaScript, on strings

  The elements in the order of their first insertion, without
  repetition. *)

Module JsSet.

Definition t := list string.

Definition has (s : t) (x : string) : bool :=
  existsb (String.eqb x) s.

Definition add (s : t) (x : string) : t :=
  if has s x then s else (s ++ [x])%list.

(** [new Set(xs)] *)
Definition of_list (xs : list string) : t := fold_left add xs [].

(** [s.delete(x)] *)
Definition delete (s : t) (x : string) : t :=
  List.filter (fun y => negb (String.eqb x y)) s.

Definition size (s : t) : nat := List.length s.

(** [s.values().next().value] *)
Definition first (s : t) : option string := List.hd_error s.

End JsSet.

(** ** Libraries the program is linked with *)

(** chalk: the three background styles in use. What they print depends
  on the colour support of the terminal, so they stay abstract. *)
Class Chalk := {
bgRed : string -> string;
bgGreen : string -> string;
bgBlue : string -> string
}.

(** A [Date] is its time value, in milliseconds since the epoch. *)
Definition Date := Z.
Bind Scope Z_scope with Date.

(** date-fns: [formatDistance(date, baseDate, {addSuffix})] on two valid
  dates. *)
Class DateFns := {
formatDistance : Date -> Date -> bool -> string
}.

(** chalk on a terminal with 16 colours. *)
Definition esc : string := String (ascii_of_nat 27) "[".

#[export] Instance ansi16 : Chalk := {|
bgRed s := esc ++ "41m" ++ s ++ esc ++ "49m";
bgGreen s := esc ++ "42m" ++ s ++ esc ++ "49m";
bgBlue s := esc ++ "44m" ++ s ++ esc ++ "49m"
|}.

(** A coarse rendering of distances, enough to run the model. *)
#[export] Instance coarse_distance : DateFns := {|
formatDistance date base addSuffix :=
  if addSuffix
  then (if (date <=? base)%Z then "some time ago" else "in some time")
  else "some time"
|}.

(** ** The answers of CodePipeline, as far as the program reads them

  Every field is optional, as in the SDK's declarations. *)

Record ActionExecution := {
ae_status : option string;
ae_lastStatusChange : option Date
}.

Record ActionState := {
as_actionName : option string;
as_latestExecution : option ActionExecution;
as_revisionUrl : option string;
as_entityUrl : option string
}.

Record StageExecution := {
se_status : option string
}.

Record StageState := {
ss_stageName : option string;
ss_latestExecution : option StageExecution;
ss_actionStates : option (list ActionState)
}.

Record GetPipelineStateOutput := {
pipelineName : option string;
stageStates : option (list StageState)
}.

Record PipelineSummary := {
name : option string
}.

Record ListPipelinesOutput := {
pipelines : option (list PipelineSummary)
}.

(** ** colorizedStatus *)

Section Aggregation.
Context `{Chalk}.

Definition colorizedStatus (statuses : JsSet.t) : string :=
  if JsSet.has statuses "Failed" then bgRed (padEnd "Failed" 10 " ")
  else
    let statuses := JsSet.delete statuses "Succeeded" in
    if (JsSet.size statuses =? 0)%nat then bgGreen (padEnd "Succeeded" 10 " ")
    else
      (* the set is not empty here: its first value is a string *)
      bgBlue (padEnd (default "" (JsSet.first statuses)) 10 " ").

End Aggregation.

(** ** The rows of the summary table *)

(** The objects built by the second [then] of [fetchPipelines]. *)
Record MappedAction := {
  ma_actionName : option string;
  ma_status : option string;
  ma_lastRun : option string;
  ma_source : option string
}.

Record MappedStage := {
  ms_stageName : option string;
  ms_status : option string;
  ms_actions : option (list MappedAction)
}.

Record MappedPipeline := {
  mp_pipelineName : option string;
  mp_stages : option (list MappedStage)
}.

(** What [table.setData] receives. *)
Record TableData := {
  headers : list string;
  data : list (list string)
}.

Section Rows.
Context `{Chalk} `{DateFns}.

(** [humanizeTime(time)]; [now] is the clock read by [new Date()]. *)
Definition humanizeTime (time now : Date) : string :=
  formatDistance time now true.

Definition mapAction (now : Date) (action : ActionState) : MappedAction :=
  {| ma_actionName := as_actionName action;
     ma_status := as_latestExecution action ≫= ae_status;
     (* [x && humanizeTime(x)]: a Date is truthy, an absent one is passed on *)
     ma_lastRun :=
       (fun time => humanizeTime time now)
         <$> (as_latestExecution action ≫= ae_lastStatusChange);
     ma_source := as_revisionUrl action |}.

Definition mapStage (now : Date) (stage : StageState) : MappedStage :=
  {| ms_stageName := ss_stageName stage;
     ms_status := ss_latestExecution stage ≫= se_status;
     ms_actions := map (mapAction now) <$> ss_actionStates stage |}.

Definition mapPipeline (now : Date) (pipeline : GetPipelineStateOutput)
  : MappedPipeline :=
  {| mp_pipelineName := pipelineName pipeline;
     mp_stages := map (mapStage now) <$> stageStates pipeline |}.

(** The third [then]: one row per pipeline. An array is truthy even when
    empty, so only an absent [stages] gives the empty row. *)
Definition summaryRow (pipeline : MappedPipeline) : list string :=
  match mp_stages pipeline with
  | None => []
  | Some stages =>
      [ default "" ((fun n => slice n 0 30) <$> mp_pipelineName pipeline);
        colorizedStatus
          (JsSet.of_list (map (fun s => default "" (ms_status s)) stages)) ]
  end.

End Rows.

(** ** The widgets *)

(** The summary table keeps the last answers under a key of its data
    store ([table.set] / [table.get]), the rows given to [setData], and
    what was sent to [screen.debug]; the detail list keeps its items. *)
Record Dashboard := {
  store : gmap string (list GetPipelineStateOutput);
  tableData : option TableData;
  debugLog : list (list (list string));
  detailItems : list string
}.

Definition initialDashboard : Dashboard :=
  {| store := ∅; tableData := None; debugLog := []; detailItems := [] |}.

Definition setDetailItems (items : list string) (d : Dashboard) : Dashboard :=
  {| store := store d; tableData := tableData d;
     debugLog := debugLog d; detailItems := items |}.

(** [table.get("stats", [])] *)
Definition getStats (d : Dashboard) : list GetPipelineStateOutput :=
  default [] (store d !! "stats").

(** ** One refresh cycle

    [fetchPipelines] returns at once; everything else happens when a
    promise settles. The cycle is a machine whose inputs are these
    settlements, in the order in which the event loop delivers them. *)

Inductive Interval := Second | Minute | Hour | Day.

Record RateLimiter := {
  tokensPerInterval : nat;
  interval : Interval
}.

Definition limiter : RateLimiter :=
  {| tokensPerInterval := 5; interval := Second |}.

(** What the program does to the outside, and what it is told, in order
    of occurrence. [task] is the index of the pipeline in [watched]. *)
Inductive event :=
| EvListPipelines
| EvRemoveTokens (l : RateLimiter) (task : nat) (count : nat)
| EvTokenGranted (task : nat)
| EvTokenRefused (task : nat)
| EvGetPipelineState (task : nat) (name : option string)
| EvDetailsResolved (task : nat)
| EvDetailsRejected (task : nat)
| EvTableSet (key : string)
| EvDebug
| EvSetData.

(** The settlements. *)
Inductive answer :=
| ListResolved (output : ListPipelinesOutput)
| ListRejected (err : string)
| TokenResolved (task : nat) (remainingRequests : Z)
| TokenRejected (task : nat) (err : string)
| DetailsResolved (task : nat) (output : GetPipelineStateOutput)
| DetailsRejected (task : nat) (err : string).

(** The promise made by [watched.map] for one pipeline. *)
Inductive task :=
| AwaitToken (pp : PipelineSummary)
| AwaitDetails (pp : PipelineSummary)
| Fulfilled (pp : PipelineSummary) (output : GetPipelineStateOutput)
| TokenFailed (pp : PipelineSummary) (err : string)
| DetailsFailed (pp : PipelineSummary) (err : string).

(** The chain of [then]s: waiting for the list, waiting for
    [Promise.all], past the call of [table.setData] in its last [then]
    ([Published]), or rejected. Nothing catches a rejection. *)
Inductive chain :=
| AwaitList
| AwaitAll
| Published
| Rejected (err : string).

Record world := {
  dash : Dashboard;
  promise : chain;
  tasks : list task;
  trace : list event
}.

Definition emit (evs : list event) (w : world) : world :=
  {| dash := dash w; promise := promise w; tasks := tasks w;
     trace := trace w ++ evs |}.

Definition setPromise (c : chain) (w : world) : world :=
  {| dash := dash w; promise := c; tasks := tasks w; trace := trace w |}.

Definition setTasks (ts : list task) (w : world) : world :=
  {| dash := dash w; promise := promise w; tasks := ts; trace := trace w |}.

Definition setDash (d : Dashboard) (w : world) : world :=
  {| dash := d; promise := promise w; tasks := tasks w; trace := trace w |}.

(** The filter of the first [then]: [pp.name?.match(/^integration/i)]. *)
Definition isWatched (pp : PipelineSummary) : bool :=
  match name pp with
  | Some n => match_prefix_i "integration" n
  | None => false
  end.

(** [output.pipelines?.filter(...)] *)
Definition watched (output : ListPipelinesOutput)
  : option (list PipelineSummary) :=
  List.filter isWatched <$> pipelines output.

(** [removeToken()]: one token asked of [limiter]. *)
Definition removeToken (i : nat) : event := EvRemoveTokens limiter i 1.

(** [getPipelineDetails(pp.name!)] *)
Definition getPipelineDetails (i : nat) (pp : PipelineSummary) : event :=
  EvGetPipelineState i (name pp).

(** The value of a promise that is fulfilled. *)
Definition fulfilment (t : task) : option GetPipelineStateOutput :=
  match t with
  | Fulfilled _ output => Some output
  | _ => None
  end.

(** The value of [Promise.all] once every promise is fulfilled, in the
    order of [watched]. *)
Definition allFulfilled (ts : list task)
  : option (list GetPipelineStateOutput) :=
  mapM fulfilment ts.

(** [watched.map(...)]: one promise per watched pipeline, each asking for
    its token at once; the chain now waits for [Promise.all]. *)
Definition spawn (ws : list PipelineSummary) (w : world) : world :=
  emit (imap (fun i _ => removeToken i) ws)
    (setTasks (map AwaitToken ws) (setPromise AwaitAll w)).

(** The promise of pipeline [i] moves on to [t], with the events [evs]. *)
Definition advance (i : nat) (t : task) (evs : list event) (w : world)
  : world :=
  emit evs (setTasks (<[i := t]> (tasks w)) w).

Section Cycle.
Context `{Chalk} `{DateFns}.

(** The last three [then]s, run in a row once [Promise.all] is
    fulfilled. [screen.debug] gets the rows as JSON text; the log keeps
    the rows. What the table widget does on its own with the rows it is
    given is no part of this step: blessed selects a row again, which
    runs the handler of "select item" on the new answers, so that the
    detail list after a publication is the one this handler leaves (see
    [onSelectItem]), not the one kept here. *)
Definition publish (now : Date) (pipelineStats : list GetPipelineStateOutput)
  (w : world) : world :=
  let mappedStats := map (mapPipeline now) pipelineStats in
  let stats := map summaryRow mappedStats in
  let d := dash w in
  emit [EvTableSet "stats"; EvDebug; EvSetData]
    (setPromise Published
       (setDash
          {| store := <["stats" := pipelineStats]> (store d);
             tableData :=
               Some {| headers := ["Pipeline"; "Status"]; data := stats |};
             debugLog := debugLog d ++ [stats];
             detailItems := detailItems d |}
          w)).

(** [Promise.all] is fulfilled when the last of its promises is. *)
Definition settle (now : Date) (w : world) : world :=
  match promise w, allFulfilled (tasks w) with
  | AwaitAll, Some pipelineStats => publish now pipelineStats w
  | _, _ => w
  end.

(** [Promise.all] is rejected by the first of its promises that is; the
    other promises go on. *)
Definition reject (err : string) (w : world) : world :=
  match promise w with
  | AwaitAll => setPromise (Rejected err) w
  | _ => w
  end.

(** The call [fetchPipelines()]: the list is asked for, with no token. *)
Definition fetchPipelines (d : Dashboard) : world :=
  {| dash := d; promise := AwaitList; tasks := [];
     trace := [EvListPipelines] |}.

(** One settlement delivered at time [now]; [None] when nothing is
    waiting for it. *)
Definition step (now : Date) (w : world) (a : answer) : option world :=
  match a with
  | ListResolved output =>
      match promise w with
      | AwaitList =>
          match watched output with
          | Some ws => Some (settle now (spawn ws w))
          | None => Some (publish now [] w)
          end
      | _ => None
      end
  | ListRejected err =>
      match promise w with
      | AwaitList => Some (setPromise (Rejected err) w)
      | _ => None
      end
  | TokenResolved i _ =>
      match tasks w !! i with
      | Some (AwaitToken pp) =>
          Some (advance i (AwaitDetails pp)
                  [EvTokenGranted i; getPipelineDetails i pp] w)
      | _ => None
      end
  | TokenRejected i err =>
      match tasks w !! i with
      | Some (AwaitToken pp) =>
          Some (reject err
                  (advance i (TokenFailed pp err) [EvTokenRefused i] w))
      | _ => None
      end
  | DetailsResolved i output =>
      match tasks w !! i with
      | Some (AwaitDetails pp) =>
          Some (settle now
                  (advance i (Fulfilled pp output) [EvDetailsResolved i] w))
      | _ => None
      end
  | DetailsRejected i err =>
      match tasks w !! i with
      | Some (AwaitDetails pp) =>
          Some (reject err
                  (advance i (DetailsFailed pp err) [EvDetailsRejected i] w))
      | _ => None
      end
  end.

(** The states of a cycle started on dashboard [d]. *)
Inductive reachable (d : Dashboard) : world -> Prop :=
| reach_call : reachable d (fetchPipelines d)
| reach_step now w a w' :
    reachable d w -> step now w a = Some w' -> reachable d w'.

(** A cycle run on a script of settlements; one that nothing waits for
    is dropped. *)
Fixpoint run (w : world) (script : list (Date * answer)) : world :=
  match script with
  | [] => w
  | (now, a) :: script' =>
      match step now w a with
      | Some w' => run w' script'
      | None => run w script'
      end
  end.

End Cycle.

(** ** The handler of "select item"

    A handler changes the items of the detail list and may stop on an
    exception; the items added before the exception stay. *)

Inductive js_error :=
| TypeError (property : string)
| RangeError (msg : string).

Inductive outcome (A : Type) :=
| Returned (a : A)
| Threw (e : js_error).
Arguments Returned {A} a.
Arguments Threw {A} e.

Definition Handler (A : Type) : Type :=
  list string -> outcome A * list string.

Definition ret {A} (a : A) : Handler A := fun items => (Returned a, items).

Definition throw {A} (e : js_error) : Handler A :=
  fun items => (Threw e, items).

Definition bind {A B} (m : Handler A) (k : A -> Handler B) : Handler B :=
  fun items =>
    match m items with
    | (Returned a, items') => k a items'
    | (Threw e, items') => (Threw e, items')
    end.

Notation "'let!' x ':=' m 'in' k" := (bind m (fun x => k))
  (at level 10, x name, m at level 100, k at level 200).
Notation "m ';;' k" := (bind m (fun _ => k))
  (at level 100, k at level 200, right associativity).

(** [detailTable.clearItems()] *)
Definition clearItems : Handler unit := fun _ => (Returned tt, []).

(** [detailTable.add(line)] *)
Definition add (line : string) : Handler unit :=
  fun items => (Returned tt, (items ++ [line])%list).

(** A pure computation that may throw. *)
Definition lift {A} (r : outcome A) : Handler A := fun items => (r, items).

(** [_.each(xs, f)], on an array or on [undefined]; no callback here
    returns [false], so the loop is never cut short. *)
Fixpoint each {A} (xs : list A) (f : A -> Handler unit) : Handler unit :=
  match xs with
  | [] => ret tt
  | x :: xs' => f x ;; each xs' f
  end.

(** [x!.field]: reading a property of [undefined] is a TypeError, kept
    here with the name of the property. *)
Definition deref {A} (x : option A) (field : string) : outcome A :=
  match x with
  | Some v => Returned v
  | None =>
      Threw (TypeError field)
  end.

Definition tab : string := String (ascii_of_nat 9) "".

Section Select.
Context `{DateFns}.

(** [humanizeTime(x!)]: the assertion [!] checks nothing, so the
    handler passes a Date or [undefined]. date-fns throws a RangeError
    on a date that is not valid, and [undefined] is none. *)
Definition humanizeTimeUnchecked (time : option Date) (now : Date)
  : outcome string :=
  match time with
  | Some t => Returned (humanizeTime t now)
  | None => Threw (RangeError "Invalid time value")
  end.

(** [stats.find(p => p.pipelineName!.startsWith(key))] *)
Fixpoint findPipeline (key : string) (stats : list GetPipelineStateOutput)
  : outcome (option GetPipelineStateOutput) :=
  match stats with
  | [] => Returned None
  | p :: rest =>
      match deref (pipelineName p) "startsWith" with
      | Returned n =>
          if startsWith n key then Returned (Some p) else findPipeline key rest
      | Threw e => Threw e
      end
  end.

(** [action.revisionUrl ?? action.entityUrl ?? ""] *)
Definition link (action : ActionState) : string :=
  match as_revisionUrl action with
  | Some url => url
  | None => default "" (as_entityUrl action)
  end.

(** The four [detailTable.add] of one action. *)
Definition addAction (now : Date) (stage : StageState) (action : ActionState)
  : Handler unit :=
  let! latest := lift (deref (as_latestExecution action) "status") in
  add ("Stage: " ++ interpolate (ss_stageName stage) ++ tab
       ++ "Action: " ++ interpolate (as_actionName action) ++ tab
       ++ "Status: " ++ interpolate (ae_status latest)) ;;
  let! latest := lift (deref (as_latestExecution action) "lastStatusChange") in
  let! ran := lift (humanizeTimeUnchecked (ae_lastStatusChange latest) now) in
  add (tab ++ "Last Ran: " ++ ran) ;;
  add (tab ++ "Link: " ++ link action) ;;
  add "".

(** The key of the lookup: [node.content.split(" ")[0]]. *)
Definition selectedName (content : string) : string :=
  List.hd "" (split " " content).

(** The handler, on the content of the selected row. [stats] is what
    [table.get("stats", [])] returns. A stage of the array is an object,
    so [if (stage)] always holds. *)
Definition selectItem (now : Date) (stats : list GetPipelineStateOutput)
  (content : string) : Handler unit :=
  clearItems ;;
  let! pipeline := lift (findPipeline (selectedName content) stats) in
  match pipeline with
  | Some p =>
      each (default [] (stageStates p)) (fun stage =>
        each (default [] (ss_actionStates stage)) (fun action =>
          addAction now stage action))
  | None => ret tt
  end.

(** The event on a dashboard: the handler runs on the answers stored by
    the last cycle and on the items of the detail list. *)
Definition onSelectItem (now : Date) (content : string) (d : Dashboard)
  : outcome unit * Dashboard :=
  let (r, items) := selectItem now (getStats d) content (detailItems d) in
  (r, setDetailItems items d).

End Select.

(** ** Vocabulary of the statements *)

(** The status the program reads off a stage: that of its latest
    execution, the empty string when there is none. *)
Definition stageStatus (stage : StageState) : string :=
  default "" (ss_latestExecution stage ≫= se_status).

(** The stages and the actions of a snapshot, absent arrays read as
    empty, and its actions paired with their stage, in order. *)
Definition stagesOf (p : GetPipelineStateOutput) : list StageState :=
  default [] (stageStates p).

Definition actionsOf (stage : StageState) : list ActionState :=
  default [] (ss_actionStates stage).

Definition stageActions (p : GetPipelineStateOutput)
  : list (StageState * ActionState) :=
  flat_map (fun stage => map (pair stage) (actionsOf stage)) (stagesOf p).

Definition actionStatus (action : ActionState) : option string :=
  as_latestExecution action ≫= ae_status.

Definition actionStatuses (p : GetPipelineStateOutput) : list (option string) :=
  map (fun sa => actionStatus (snd sa)) (stageActions p).

(** The first cell of a row: the name cut to 30 characters. *)
Definition nameCell (p : GetPipelineStateOutput) : string :=
  default "" ((fun n => slice n 0 30) <$> pipelineName p).

(** [s] with every character canonicalized. *)
Fixpoint upper (s : string) : string :=
  match s with
  | EmptyString => EmptyString
  | String c rest => String (canonicalize c) (upper rest)
  end.

(** The task an event is about. *)
Definition eventTask (e : event) : option nat :=
  match e with
  | EvRemoveTokens _ i _ | EvTokenGranted i | EvTokenRefused i
  | EvGetPipelineState i _ | EvDetailsResolved i | EvDetailsRejected i => Some i
  | EvListPipelines | EvTableSet _ | EvDebug | EvSetData => None
  end.

Definition belongs (i : nat) (e : event) : bool :=
  match eventTask e with
  | Some j => Nat.eqb i j
  | None => false
  end.

Definition taskSummary (t : task) : PipelineSummary :=
  match t with
  | AwaitToken pp | AwaitDetails pp | Fulfilled pp _
  | TokenFailed pp _ | DetailsFailed pp _ => pp
  end.

(** The events of task [i] when its promise is in state [t]. *)
Definition script (i : nat) (t : task) : list event :=
  match t with
  | AwaitToken _ => [removeToken i]
  | AwaitDetails pp =>
      [removeToken i; EvTokenGranted i; getPipelineDetails i pp]
  | Fulfilled pp _ =>
      [removeToken i; EvTokenGranted i; getPipelineDetails i pp;
       EvDetailsResolved i]
  | TokenFailed _ _ => [removeToken i; EvTokenRefused i]
  | DetailsFailed pp _ =>
      [removeToken i; EvTokenGranted i; getPipelineDetails i pp;
       EvDetailsRejected i]
  end.

Definition failed (t : task) : bool :=
  match t with
  | TokenFailed _ _ | DetailsFailed _ _ => true
  | _ => false
  end.

(** What holds of every state of a cycle started on dashboard [d]. *)
Record cycle_invariant (d : Dashboard) (w : world) : Prop := {
  inv_protocol : forall i,
    List.filter (belongs i) (trace w)
    = from_option (script i) [] (tasks w !! i);
  inv_first : exists rest,
    trace w = EvListPipelines :: rest /\ ~ In EvListPipelines rest;
  inv_watched :
    Forall (fun t => isWatched (taskSummary t) = true) (tasks w);
  inv_state :
    match promise w with
    | AwaitList =>
        tasks w = [] /\ dash w = d /\ ~ In EvSetData (trace w)
    | AwaitAll =>
        Forall (fun t => failed t = false) (tasks w) /\
        dash w = d /\ ~ In EvSetData (trace w)
    | Rejected _ => dash w = d /\ ~ In EvSetData (trace w)
    | Published => Forall (fun t => is_Some (fulfilment t)) (tasks w)
    end
}.

(** The time of the last change of an action, when it has one. *)
Definition lastChange (action : ActionState) : option Date :=
  as_latestExecution action ≫= ae_lastStatusChange.

Section Blocks.
Context `{DateFns}.

(** The four lines of an action in the detail list. *)
Definition block (now : Date) (sa : StageState * ActionState) : list string :=
  [ "Stage: " ++ interpolate (ss_stageName (fst sa)) ++ tab
    ++ "Action: " ++ interpolate (as_actionName (snd sa)) ++ tab
    ++ "Status: " ++ interpolate (actionStatus (snd sa));
    tab ++ "Last Ran: "
    ++ from_option (fun time => humanizeTime time now) "" (lastChange (snd sa));
    tab ++ "Link: " ++ link (snd sa);
    "" ].

(** What is listed of an action without [lastChange] before the handler
    stops: nothing without a latest execution, the first line with one. *)
Definition torso (now : Date) (sa : StageState * ActionState) : list string :=
  match as_latestExecution (snd sa) with
  | None => []
  | Some _ => take 1 (block now sa)
  end.

End Blocks.

(** The exception raised on such an action. *)
Definition fault (action : ActionState) : js_error :=
  match as_latestExecution action with
  | None => TypeError "status"
  | Some _ => RangeError "Invalid time value"
  end.

(** ** Sample data *)

Definition executed (status : string) (changed : Date) : ActionExecution :=
  {| ae_status := Some status; ae_lastStatusChange := Some changed |}.

Definition actionAt (actionName status : string) (changed : Date)
  : ActionState :=
  {| as_actionName := Some actionName;
     as_latestExecution := Some (executed status changed);
     as_revisionUrl := None;
     as_entityUrl := Some "https://console.aws.amazon.com/codebuild" |}.

(** An action that has never run. *)
Definition neverRun (actionName : string) : ActionState :=
  {| as_actionName := Some actionName;
     as_latestExecution := None;
     as_revisionUrl := None;
     as_entityUrl := None |}.

Definition stageAt (stageName status : string) (actions : list ActionState)
  : StageState :=
  {| ss_stageName := Some stageName;
     ss_latestExecution := Some {| se_status := Some status |};
     ss_actionStates := Some actions |}.

Definition snapshot (n : string) (stages : list StageState)
  : GetPipelineStateOutput :=
  {| pipelineName := Some n; stageStates := Some stages |}.

Definition listed (n : string) : PipelineSummary := {| name := Some n |}.

(** A new execution has entered the stage: its second action still shows
    the failure of the execution before. *)
Definition retrying : GetPipelineStateOutput :=
  snapshot "integration-a"
    [stageAt "Deploy" "InProgress"
       [actionAt "Approve" "Succeeded" 50; actionAt "Release" "Failed" 20]].

(** The stage is running its second action, which has not reported yet. *)
Definition midway : GetPipelineStateOutput :=
  snapshot "integration-a"
    [stageAt "Build" "InProgress"
       [actionAt "Compile" "Succeeded" 50; actionAt "Package" "Succeeded" 20]].

(** An execution that was stopped and whose running action was abandoned. *)
Definition stopped : GetPipelineStateOutput :=
  snapshot "integration-a"
    [stageAt "Source" "Succeeded" [actionAt "Checkout" "Succeeded" 10];
     stageAt "Deploy" "Stopped" [actionAt "Release" "Abandoned" 20]].

(** The scenario of the specification: a build that passed, a
    deployment that failed. *)
Definition broken : GetPipelineStateOutput :=
  snapshot "integration-a"
    [stageAt "Build" "Succeeded" [actionAt "Compile" "Succeeded" 10];
     stageAt "Deploy" "Failed" [actionAt "Release" "Failed" 20]].

Definition healthy : GetPipelineStateOutput :=
  snapshot "Integration-B"
    [stageAt "Build" "Succeeded" [actionAt "Compile" "Succeeded" 10]].

(** An answer without [stageStates]. *)
Definition bare : GetPipelineStateOutput :=
  {| pipelineName := Some "integration-c"; stageStates := None |}.

(** An answer without [pipelineName]. *)
Definition nameless : GetPipelineStateOutput :=
  {| pipelineName := None; stageStates := None |}.

(** A pipeline one of whose actions has never run. *)
Definition fresh : GetPipelineStateOutput :=
  snapshot "integration-d"
    [stageAt "Source" "Succeeded" [actionAt "Checkout" "Succeeded" 10];
     stageAt "Deploy" "InProgress" [neverRun "Release"]].

(** The list of the specification, and one more watched pipeline. *)
Definition listing : ListPipelinesOutput :=
  {| pipelines :=
       Some [listed "integration-a"; listed "Integration-B";
             listed "other-c"; listed "integration-d"] |}.

(** A cycle in which every answer arrives, the tokens out of order. *)
Definition allAnswered : list (Date * answer) :=
  [(100, ListResolved listing);
   (101, TokenResolved 1 4); (101, TokenResolved 0 3);
   (101, TokenResolved 2 2);
   (102, DetailsResolved 0 broken); (103, DetailsResolved 2 fresh);
   (104, DetailsResolved 1 healthy)]%Z.

(** The dashboard left by that cycle. *)
Definition earlier : Dashboard :=
  dash (run (fetchPipelines initialDashboard) allAnswered).

(** A cycle in which the second of three detail fetches fails. *)
Definition oneFails : list (Date * answer) :=
  [(200, ListResolved listing);
   (201, TokenResolved 0 4); (201, TokenResolved 1 3);
   (201, TokenResolved 2 2);
   (202, DetailsResolved 0 broken);
   (203, DetailsRejected 1 "ThrottlingException");
   (204, DetailsResolved 2 fresh)]%Z.

(** The content of a row of the table: the cells, padded with spaces. *)
Definition rowOfA : string := "integration-a                          Failed".

Definition rowOfD : string := "integration-d                          InProgress".

(** ** Vocabulary of the further statements *)

(** [k] spaces. *)
Fixpoint spaces (k : nat) : string :=
  match k with
  | O => ""
  | S k' => String " " (spaces k')
  end.

Fixpoint hasSpace (s : string) : bool :=
  match s with
  | EmptyString => false
  | String c rest => Ascii.eqb c " " || hasSpace rest
  end.

(** A stored answer the lookup goes past: it has a name, and the name
    does not start with the key. *)
Definition passedOver (key : string) (q : GetPipelineStateOutput) : Prop :=
  exists n, pipelineName q = Some n /\ forall rest, n <> key ++ rest.

Definition isTokenRequest (e : event) : bool :=
  match e with
  | EvRemoveTokens _ _ _ => true
  | _ => false
  end.


Section Shown.
Context `{Chalk}.

(** The row of an answer, read off its name and its stage statuses. *)
Definition rowOf (p : GetPipelineStateOutput) : list string :=
  match stageStates p with
  | None => []
  | Some stages =>
      [nameCell p; colorizedStatus (JsSet.of_list (map stageStatus stages))]
  end.

(** Dashboard [d] once the answers [outs] are published. *)
Definition shown (d : Dashboard) (outs : list GetPipelineStateOutput)
  : Dashboard :=
  {| store := <["stats" := outs]> (store d);
     tableData :=
       Some {| headers := ["Pipeline"; "Status"]; data := map rowOf outs |};
     debugLog := debugLog d ++ [map rowOf outs];
     detailItems := detailItems d |}.

End Shown.

(** The table of blessed-contrib. The content of a row of its list is
    the cells joined, each cut to the width of its column ([columnWidth],
    30 and 10 at line 130) and followed by spaces up to this width and
    the spacing of the columns. Of this only two facts are used: a row
    without cell has the empty content, and a first cell of at most 30
    characters is followed by a space. *)
Class TableWidget := {
  rowContent : list string -> string;
  rowContent_empty : rowContent [] = "";
  rowContent_first : forall cell cells,
    String.length cell <= 30 ->
    exists rest, rowContent (cell :: cells) = cell ++ String " " rest
}.

(** The join on cells that hold no escape sequence: a cell of [n]
    characters in a column of width [w] is cut to [w] characters and
    followed by the spaces of [new Array(w - n + 10).join(" ")]. *)
Fixpoint padRow (widths : list nat) (row : list string) : string :=
  match row, widths with
  | cell :: row', width :: widths' =>
      slice cell 0 width
      ++ spaces (width + 10 - String.length cell - 1)
      ++ padRow widths' row'
  | _, _ => ""
  end.

#[export] Instance paddedTable : TableWidget.
Proof.
  refine {| rowContent := padRow [30; 10] |}.
  - reflexivity.
  - intros cell cells Hlen. cbn [padRow]. unfold slice.
    assert (Hcut : forall n s, String.length s <= n -> String.substring 0 n s = s).
    { induction n as [|n IH]; intros [|c s] Hs; cbn in *;
        try reflexivity; try lia.
      rewrite IH by lia. reflexivity. }
    rewrite Nat.sub_0_r, (Hcut 30 cell Hlen).
    destruct (30 + 10 - String.length cell - 1) as [|k] eqn:Hk; [lia|].
    eexists. reflexivity.
Defined.

(** The watched pipelines of the list answer a cycle has received, none
    when it has received no list. *)
Definition watchedOf (received : option ListPipelinesOutput)
  : list PipelineSummary :=
  default [] (received ≫= watched).

(** ** Further sample data *)

(** Two names with a space, which agree up to it. *)
Definition spacedX : GetPipelineStateOutput :=
  snapshot "integration x"
    [stageAt "Build" "Succeeded" [actionAt "Compile" "Succeeded" 10]].

Definition spacedY : GetPipelineStateOutput :=
  snapshot "integration y"
    [stageAt "Build" "Failed" [actionAt "Compile" "Failed" 10]].


(** A stage that has never run: no latest execution. *)
Definition unstarted : GetPipelineStateOutput :=
  snapshot "integration-e"
    [stageAt "Source" "Succeeded" [actionAt "Checkout" "Succeeded" 10];
     {| ss_stageName := Some "Deploy"; ss_latestExecution := None;
        ss_actionStates := Some [neverRun "Release"] |}].



(** A list in which nothing is watched. *)
Definition unrelated : ListPipelinesOutput :=
  {| pipelines := Some [listed "other-c"; {| name := None |};
                        listed "my-integration"] |}.

(** A cycle in which the limiter refuses the token of the second
    pipeline. *)
Definition tokenRefused : list (Date * answer) :=
  [(400, ListResolved listing);
   (401, TokenResolved 0 4); (401, TokenRejected 1 "limiter");
   (401, TokenResolved 2 3);
   (402, DetailsResolved 0 broken); (403, DetailsResolved 2 fresh)]%Z.

(** ** The program: the cycles of startup and of the timer

    [fetchPipelines()] is called once at startup and then by
    [setInterval], whether or not the cycles before have settled. The
    cycles share the widgets; the [dash] kept in the state of a cycle is
    the dashboard as this cycle last left it, and a settlement is
    delivered on the dashboard of the program. *)

Inductive occurrence :=
| Tick
| Settle (k : nat) (a : answer).

Record program := {
  board : Dashboard;
  cycles : list world
}.

(** Lines 110 and 113 to 143: the first call, on widgets that hold
    nothing yet. *)
Definition startup : program :=
  {| board := initialDashboard; cycles := [fetchPipelines initialDashboard] |}.

(** The timer fires: one more cycle. *)
Definition tick (p : program) : program :=
  {| board := board p; cycles := (cycles p ++ [fetchPipelines (board p)])%list |}.

(** What of a cycle does not depend on the dashboard. *)
Definition control (w : world) : chain * list task * list event :=
  (promise w, tasks w, trace w).

Section Program.
Context `{Chalk} `{DateFns}.

(** A settlement for cycle [k]. *)
Definition settleIn (now : Date) (k : nat) (a : answer) (p : program)
  : option program :=
  match cycles p !! k with
  | Some w =>
      match step now (setDash (board p) w) a with
      | Some w' => Some {| board := dash w'; cycles := <[k := w']> (cycles p) |}
      | None => None
      end
  | None => None
  end.

Definition occur (now : Date) (p : program) (o : occurrence) : option program :=
  match o with
  | Tick => Some (tick p)
  | Settle k a => settleIn now k a p
  end.

(** The states of the program. *)
Inductive running : program -> Prop :=
| running_startup : running startup
| running_occur now p o p' :
    running p -> occur now p o = Some p' -> running p'.

(** The program played on a script; what nothing waits for is dropped. *)
Fixpoint play (p : program) (script : list (Date * occurrence)) : program :=
  match script with
  | [] => p
  | (now, o) :: script' =>
      match occur now p o with
      | Some p' => play p' script'
      | None => play p script'
      end
  end.

(** The list answer each cycle has received, kept beside the program:
    [g !! k] is the answer accepted by cycle [k], if any. *)
Definition note (o : occurrence) (g : list (option ListPipelinesOutput))
  : list (option ListPipelinesOutput) :=
  match o with
  | Tick => (g ++ [None])%list
  | Settle k (ListResolved output) => <[k := Some output]> g
  | Settle _ _ => g
  end.

(** The states of the program, with the list answers received. *)
Inductive tracked : program -> list (option ListPipelinesOutput) -> Prop :=
| tracked_startup : tracked startup [None]
| tracked_occur now p g o p' :
    tracked p g -> occur now p o = Some p' -> tracked p' (note o g).

(** The list answers received along a script. *)
Fixpoint ledger (p : program) (g : list (option ListPipelinesOutput))
  (script : list (Date * occurrence)) : list (option ListPipelinesOutput) :=
  match script with
  | [] => g
  | (now, o) :: script' =>
      match occur now p o with
      | Some p' => ledger p' (note o g) script'
      | None => ledger p g script'
      end
  end.

End Program.

(** A list with one watched pipeline, and a first cycle so slow that it
    is answered after the second one. *)
Definition shortList : ListPipelinesOutput :=
  {| pipelines := Some [listed "integration-a"; listed "other-c"] |}.

Definition passing : GetPipelineStateOutput :=
  snapshot "integration-a"
    [stageAt "Build" "Succeeded" [actionAt "Compile" "Succeeded" 10];
     stageAt "Deploy" "Succeeded" [actionAt "Release" "Succeeded" 20]].

Definition overtaking : list (Date * occurrence) :=
  [(0, Settle 0 (ListResolved shortList));
   (1, Settle 0 (TokenResolved 0 4));
   (60000, Tick);
   (60001, Settle 1 (ListResolved shortList));
   (60002, Settle 1 (TokenResolved 0 4));
   (60003, Settle 1 (DetailsResolved 0 broken))]%Z.

Definition overtaken : list (Date * occurrence) :=
  (overtaking ++ [(60004, Settle 0 (DetailsResolved 0 passing))])%list%Z.

(** * Properties *)

(** ** The set of statuses *)

Module JsSetFacts.
Import JsSet.

Lemma has_app (s s' : t) x : has (s ++ s')%list x = has s x || has s' x.
Proof. unfold has. apply existsb_app. Qed.

Lemma has_add (s : t) y x : has (add s y) x = has s x || String.eqb x y.
Proof.
  unfold add. destruct (has s y) eqn:Hy.
  - destruct (String.eqb_spec x y) as [->|_].
    + rewrite Hy. reflexivity.
    + rewrite orb_false_r. reflexivity.
  - rewrite has_app. simpl. rewrite orb_false_r. reflexivity.
Qed.

Lemma has_fold xs : forall (acc : t) x,
  has (fold_left add xs acc) x = has acc x || existsb (String.eqb x) xs.
Proof.
  induction xs as [|y xs IH]; intros acc x; simpl.
  - rewrite orb_false_r. reflexivity.
  - rewrite IH, has_add, orb_assoc. reflexivity.
Qed.

Lemma has_of_list xs x : has (of_list xs) x = existsb (String.eqb x) xs.
Proof. unfold of_list. rewrite has_fold. reflexivity. Qed.

Lemma existsb_eqb_In x (xs : list string) :
  existsb (String.eqb x) xs = true <-> In x xs.
Proof.
  rewrite existsb_exists. split.
  - intros (y & Hy & Heq). apply String.eqb_eq in Heq. congruence.
  - intros Hin. exists x. split; [assumption | apply String.eqb_refl].
Qed.

Lemma has_delete_ne (s : t) x y : x <> y -> has (delete s x) y = has s y.
Proof.
  intros Hne. unfold has, delete. induction s as [|z s IH]; simpl; [reflexivity|].
  destruct (String.eqb_spec x z) as [->|Hxz]; simpl.
  - rewrite IH. destruct (String.eqb_spec y z) as [->|_]; [congruence | reflexivity].
  - rewrite IH. reflexivity.
Qed.

Lemma delete_app (s s' : t) x : delete (s ++ s')%list x = (delete s x ++ delete s' x)%list.
Proof. unfold delete. apply List.filter_app. Qed.

Lemma delete_add (s : t) x y :
  delete (add s y) x = if String.eqb x y then delete s x else add (delete s x) y.
Proof.
  unfold add at 1. destruct (String.eqb_spec x y) as [->|Hne].
  - destruct (has s y); [reflexivity|].
    rewrite delete_app. simpl. rewrite String.eqb_refl. simpl.
    apply app_nil_r.
  - unfold add. rewrite has_delete_ne by assumption.
    destruct (has s y); [reflexivity|].
    rewrite delete_app. simpl.
    destruct (String.eqb_spec x y); [congruence | reflexivity].
Qed.

Lemma delete_fold xs : forall (acc : t) x,
  delete (fold_left add xs acc) x
  = fold_left add (List.filter (fun y => negb (String.eqb x y)) xs) (delete acc x).
Proof.
  induction xs as [|y xs IH]; intros acc x; simpl; [reflexivity|].
  rewrite IH, delete_add.
  destruct (String.eqb x y); reflexivity.
Qed.

Lemma first_add (s : t) y :
  first (add s y) = match s with [] => Some y | z :: _ => Some z end.
Proof.
  unfold add. destruct s as [|z s]; [reflexivity|].
  destruct (has (z :: s) y); reflexivity.
Qed.

Lemma first_fold xs : forall acc : t,
  first (fold_left add xs acc)
  = match acc with [] => List.hd_error xs | z :: _ => Some z end.
Proof.
  induction xs as [|y xs IH]; intros acc; simpl.
  - destruct acc; reflexivity.
  - rewrite IH. pose proof (first_add acc y) as Hf.
    destruct acc as [|z acc]; destruct (add _ y); simpl in *; congruence.
Qed.

(** Deleting from [new Set(xs)] is building the set of the other
    elements: the order of first occurrence is kept. *)
Lemma delete_of_list xs x :
  delete (of_list xs) x = of_list (List.filter (fun y => negb (String.eqb x y)) xs).
Proof. unfold of_list. rewrite delete_fold. reflexivity. Qed.

Lemma first_of_list xs : first (of_list xs) = List.hd_error xs.
Proof. unfold of_list. rewrite first_fold. reflexivity. Qed.

Lemma size_of_list_0 xs : size (of_list xs) = 0 <-> xs = [].
Proof.
  split; [|intros ->; reflexivity].
  intros Hs. pose proof (first_of_list xs) as Hf.
  unfold size in Hs. destruct (of_list xs); [|discriminate].
  destruct xs; [reflexivity | discriminate].
Qed.

End JsSetFacts.

Section AggregationFacts.
Context `{Chalk}.

(** [colorizedStatus] on the set of a list of statuses: red as soon as
    one is ["Failed"], else green when all are ["Succeeded"], else blue
    with the first other status of the list. *)
Lemma colorizedStatus_of_list (xs : list string) :
  colorizedStatus (JsSet.of_list xs)
  = if existsb (String.eqb "Failed") xs then bgRed (padEnd "Failed" 10 " ")
    else match List.filter (fun y => negb (String.eqb "Succeeded" y)) xs with
         | [] => bgGreen (padEnd "Succeeded" 10 " ")
         | s :: _ => bgBlue (padEnd s 10 " ")
         end.
Proof.
  unfold colorizedStatus. rewrite JsSetFacts.has_of_list.
  destruct (existsb _ xs); [reflexivity|].
  cbv zeta. rewrite JsSetFacts.delete_of_list.
  set (others := List.filter _ xs).
  destruct (Nat.eqb_spec (JsSet.size (JsSet.of_list others)) 0) as [H0|Hn0].
  - apply JsSetFacts.size_of_list_0 in H0. rewrite H0. reflexivity.
  - rewrite JsSetFacts.first_of_list. destruct others as [|s others'].
    + exfalso. apply Hn0. reflexivity.
    + reflexivity.
Qed.

End AggregationFacts.

(** ** Aggregation of a snapshot *)

Section RowFacts.
Context `{Chalk} `{DateFns}.

Lemma mapped_statuses now (stages : list StageState) :
  map (fun s => default "" (ms_status s)) (map (mapStage now) stages)
  = map stageStatus stages.
Proof. rewrite map_map. reflexivity. Qed.

(** The row of a snapshot that has stages. *)
Lemma summaryRow_stages now p stages :
  stageStates p = Some stages ->
  summaryRow (mapPipeline now p)
  = [nameCell p; colorizedStatus (JsSet.of_list (map stageStatus stages))].
Proof.
  intros Hs. unfold summaryRow, mapPipeline, nameCell. simpl.
  rewrite Hs. simpl. rewrite mapped_statuses. reflexivity.
Qed.

(** C1, amended. The aggregation reads the status of the stages, not of
    the actions: a snapshot with a stage whose latest execution is
    ["Failed"] gets the label ["Failed"], padded to 10 characters on a
    red background, whatever the other stages say. *)
Theorem failed_stage_aggregates_to_Failed now p stages :
  stageStates p = Some stages ->
  In "Failed" (map stageStatus stages) ->
  summaryRow (mapPipeline now p) = [nameCell p; bgRed "Failed    "].
Proof.
  intros Hs Hin. rewrite (summaryRow_stages now p stages Hs).
  rewrite colorizedStatus_of_list.
  apply JsSetFacts.existsb_eqb_In in Hin. rewrite Hin. reflexivity.
Qed.

(** C2, amended. A snapshot whose stages are all ["Succeeded"], an empty
    array of stages included, gets the label ["Succeeded"] on a green
    background. *)
Theorem succeeded_stages_aggregate_to_Succeeded now p stages :
  stageStates p = Some stages ->
  (forall stage, In stage stages -> stageStatus stage = "Succeeded") ->
  summaryRow (mapPipeline now p) = [nameCell p; bgGreen "Succeeded "].
Proof.
  intros Hs Hall. rewrite (summaryRow_stages now p stages Hs).
  rewrite colorizedStatus_of_list.
  assert (Hmap : map stageStatus stages = repeat "Succeeded" (length stages)).
  { clear Hs. induction stages as [|st stages IH]; simpl; [reflexivity|].
    rewrite (Hall st) by (left; reflexivity).
    rewrite IH by (intros; apply Hall; right; assumption). reflexivity. }
  rewrite Hmap. clear. induction (length stages) as [|n IH]; simpl.
  - reflexivity.
  - exact IH.
Qed.

(** The first element of a list that is not ["Succeeded"]. *)
Lemma first_other (xs : list string) s rest :
  List.filter (fun y => negb (String.eqb "Succeeded" y)) xs = s :: rest ->
  exists before after,
    xs = (before ++ s :: after)%list /\
    (forall s', In s' before -> s' = "Succeeded") /\
    s <> "Succeeded".
Proof.
  induction xs as [|x xs IH]; [discriminate|].
  cbn [List.filter].
  destruct (String.eqb_spec "Succeeded" x) as [<-|Hne]; cbn [negb].
  - intros Hf. destruct (IH Hf) as (before & after & -> & Hb & Hs).
    exists ("Succeeded" :: before), after. split; [reflexivity|].
    split; [|assumption].
    intros s' [<-|Hin]; [reflexivity | apply Hb; assumption].
  - intros Hf. injection Hf as -> _. exists [], xs. split; [reflexivity|].
    split; [intros s' [] | congruence].
Qed.

(** C3, amended. With no ["Failed"] stage and some stage whose status is
    neither ["Succeeded"] nor ["Failed"], the label is one of these
    other stage statuses (the first one in the order of the stages), on
    a blue background. *)
Theorem other_stage_status_is_reported now p stages :
  stageStates p = Some stages ->
  ~ In "Failed" (map stageStatus stages) ->
  (exists s, In s (map stageStatus stages) /\
             s <> "Succeeded" /\ s <> "Failed") ->
  exists s before after,
    map stageStatus stages = (before ++ s :: after)%list /\
    (forall s', In s' before -> s' = "Succeeded") /\
    s <> "Succeeded" /\ s <> "Failed" /\
    summaryRow (mapPipeline now p) = [nameCell p; bgBlue (padEnd s 10 " ")].
Proof.
  intros Hs Hnf (s0 & Hin0 & Hns0 & _).
  rewrite (summaryRow_stages now p stages Hs), colorizedStatus_of_list.
  destruct (existsb (String.eqb "Failed") (map stageStatus stages)) eqn:Hf.
  { exfalso. apply Hnf. apply JsSetFacts.existsb_eqb_In. exact Hf. }
  destruct (List.filter _ (map stageStatus stages)) as [|s rest] eqn:Hfilter.
  - exfalso.
    assert (Hin : In s0 (List.filter (fun y => negb (String.eqb "Succeeded" y))
                           (map stageStatus stages))).
    { apply List.filter_In. split; [assumption|].
      destruct (String.eqb_spec "Succeeded" s0); [congruence | reflexivity]. }
    rewrite Hfilter in Hin. destruct Hin.
  - destruct (first_other _ _ _ Hfilter) as (before & after & Heq & Hb & Hne).
    exists s, before, after. repeat split; try assumption.
    intros ->. apply Hnf. rewrite Heq. apply in_or_app. right. left. reflexivity.
Qed.

(** C10. A pipeline answered without [stageStates] keeps its place in
    the published data, with a row of no cell at all. *)
Theorem absent_stages_publish_an_empty_row now outs w i p :
  outs !! i = Some p ->
  stageStates p = None ->
  exists td,
    tableData (dash (publish now outs w)) = Some td /\
    length (data td) = length outs /\
    data td !! i = Some [].
Proof.
  intros Hi Hs. eexists. split; [reflexivity|]. simpl. split.
  - rewrite !length_map. reflexivity.
  - rewrite !list_lookup_fmap, Hi. simpl.
    unfold summaryRow, mapPipeline. simpl. rewrite Hs. reflexivity.
Qed.

(** What a cycle publishes is what the next selection reads. *)
Lemma published_stats_are_stored now outs w :
  getStats (dash (publish now outs w)) = outs.
Proof.
  unfold getStats. cbn [publish emit setPromise setDash dash store].
  rewrite lookup_insert_eq. reflexivity.
Qed.

End RowFacts.

Lemma failed_stage_witness :
  stageStates broken = Some (stagesOf broken) /\
  In "Failed" (map stageStatus (stagesOf broken)) /\
  summaryRow (mapPipeline 0 broken) = [nameCell broken; bgRed "Failed    "].
Proof.
  assert (Hs : stageStates broken = Some (stagesOf broken)) by reflexivity.
  assert (Hin : In "Failed" (map stageStatus (stagesOf broken)))
    by (simpl; auto).
  split; [exact Hs|]. split; [exact Hin|].
  exact (failed_stage_aggregates_to_Failed 0 broken (stagesOf broken) Hs Hin).
Defined.

(** C1 as stated fails: an action is ["Failed"], the row says
    ["InProgress"]. *)
Lemma failed_action_not_reported :
  In (Some "Failed") (actionStatuses retrying) /\
  summaryRow (mapPipeline 0 retrying)
  = ["integration-a"; bgBlue "InProgress"] /\
  summaryRow (mapPipeline 0 retrying) !! 1 <> Some (bgRed "Failed    ").
Proof.
  split; [simpl; auto|]. split; [reflexivity|]. vm_compute. discriminate.
Qed.

Lemma succeeded_stages_witness :
  stageStates healthy = Some (stagesOf healthy) /\
  (forall stage, In stage (stagesOf healthy) -> stageStatus stage = "Succeeded") /\
  summaryRow (mapPipeline 0 healthy) = [nameCell healthy; bgGreen "Succeeded "].
Proof.
  assert (Hs : stageStates healthy = Some (stagesOf healthy)) by reflexivity.
  assert (Hall : forall stage, In stage (stagesOf healthy) ->
                               stageStatus stage = "Succeeded").
  { intros stage [<-|[]]. reflexivity. }
  split; [exact Hs|]. split; [exact Hall|].
  exact (succeeded_stages_aggregate_to_Succeeded 0 healthy _ Hs Hall).
Defined.

(** C2 as stated fails: every action is ["Succeeded"], the row says
    ["InProgress"]. *)
Lemma succeeded_actions_not_reported :
  (forall s, In s (actionStatuses midway) -> s = Some "Succeeded") /\
  summaryRow (mapPipeline 0 midway) = ["integration-a"; bgBlue "InProgress"] /\
  summaryRow (mapPipeline 0 midway) !! 1 <> Some (bgGreen "Succeeded ").
Proof.
  split.
  { intros s [<-|[<-|[]]]; reflexivity. }
  split; [reflexivity|]. vm_compute. discriminate.
Qed.

Lemma other_stage_status_witness :
  stageStates stopped = Some (stagesOf stopped) /\
  ~ In "Failed" (map stageStatus (stagesOf stopped)) /\
  (exists s, In s (map stageStatus (stagesOf stopped)) /\
             s <> "Succeeded" /\ s <> "Failed") /\
  exists s before after,
    map stageStatus (stagesOf stopped) = (before ++ s :: after)%list /\
    (forall s', In s' before -> s' = "Succeeded") /\
    s <> "Succeeded" /\ s <> "Failed" /\
    summaryRow (mapPipeline 0 stopped)
    = [nameCell stopped; bgBlue (padEnd s 10 " ")].
Proof.
  assert (Hs : stageStates stopped = Some (stagesOf stopped)) by reflexivity.
  assert (Hnf : ~ In "Failed" (map stageStatus (stagesOf stopped))).
  { simpl. intros [H|[H|[]]]; discriminate H. }
  assert (Hex : exists s, In s (map stageStatus (stagesOf stopped)) /\
                          s <> "Succeeded" /\ s <> "Failed").
  { exists "Stopped". simpl. split; [auto|]. split; discriminate. }
  split; [exact Hs|]. split; [exact Hnf|]. split; [exact Hex|].
  exact (other_stage_status_is_reported 0 stopped _ Hs Hnf Hex).
Defined.

(** C3 as stated fails: the label, ["Stopped"], is the status of no
    action of the snapshot. *)
Lemma label_is_no_action_status :
  ~ In (Some "Failed") (actionStatuses stopped) /\
  In (Some "Abandoned") (actionStatuses stopped) /\
  summaryRow (mapPipeline 0 stopped) = ["integration-a"; bgBlue "Stopped   "] /\
  ~ exists s, In (Some s) (actionStatuses stopped) /\
              (summaryRow (mapPipeline 0 stopped) !! 1
                 = Some (bgBlue (padEnd s 10 " ")) \/
               summaryRow (mapPipeline 0 stopped) !! 1
                 = Some (bgGreen (padEnd s 10 " ")) \/
               summaryRow (mapPipeline 0 stopped) !! 1
                 = Some (bgRed (padEnd s 10 " "))).
Proof.
  split.
  { simpl. intros [H|[H|[]]]; discriminate H. }
  split; [simpl; auto|]. split; [reflexivity|].
  intros (s & Hin & Hcell). simpl in Hin.
  destruct Hin as [[= <-]|[[= <-]|[]]];
    destruct Hcell as [Hc|[Hc|Hc]]; vm_compute in Hc; discriminate Hc.
Qed.

Lemma absent_stages_witness :
  [broken; bare] !! 1 = Some bare /\
  stageStates bare = None /\
  exists td,
    tableData (dash (publish 0 [broken; bare] (fetchPipelines initialDashboard)))
    = Some td /\
    length (data td) = length [broken; bare] /\
    data td !! 1 = Some [].
Proof.
  split; [reflexivity|]. split; [reflexivity|].
  exact (absent_stages_publish_an_empty_row 0 [broken; bare]
           (fetchPipelines initialDashboard) 1 bare eq_refl eq_refl).
Defined.

(** ** The refresh cycle *)

Lemma filter_tokens j n : forall k,
  List.filter (belongs j) (removeToken <$> seq k n)
  = if decide (k <= j < k + n) then [removeToken j] else [].
Proof.
  induction n as [|n IH]; intros k.
  - simpl. case_decide; [lia | reflexivity].
  - cbn [seq fmap list_fmap List.filter]. fold (fmap (M:=list) removeToken).
    rewrite IH. unfold belongs at 1. cbn [removeToken eventTask].
    destruct (Nat.eqb_spec j k) as [->|Hne].
    + rewrite decide_False by lia. rewrite decide_True by lia. reflexivity.
    + destruct (decide (S k <= j < S k + n)).
      * rewrite decide_True by lia. reflexivity.
      * rewrite decide_False by lia. reflexivity.
Qed.

Lemma filter_own i (evs : list event) :
  Forall (fun e => eventTask e = Some i) evs ->
  List.filter (belongs i) evs = evs.
Proof.
  induction 1 as [|e evs He _ IH]; [reflexivity|].
  cbn [List.filter]. unfold belongs at 1. rewrite He, Nat.eqb_refl, IH.
  reflexivity.
Qed.

Lemma filter_other i j (evs : list event) :
  i <> j ->
  Forall (fun e => eventTask e = Some i) evs ->
  List.filter (belongs j) evs = [].
Proof.
  intros Hne. induction 1 as [|e evs He _ IH]; [reflexivity|].
  cbn [List.filter]. unfold belongs at 1. rewrite He.
  destruct (Nat.eqb_spec j i); [congruence | exact IH].
Qed.

Lemma filter_foreign j (evs : list event) :
  Forall (fun e => eventTask e = None) evs ->
  List.filter (belongs j) evs = [].
Proof.
  induction 1 as [|e evs He _ IH]; [reflexivity|].
  cbn [List.filter]. unfold belongs at 1. rewrite He. exact IH.
Qed.

(** The events of a task grow with its promise. *)
Lemma protocol_advance (w : world) i t t' evs :
  (forall j, List.filter (belongs j) (trace w)
             = from_option (script j) [] (tasks w !! j)) ->
  tasks w !! i = Some t ->
  Forall (fun e => eventTask e = Some i) evs ->
  script i t' = (script i t ++ evs)%list ->
  forall j, List.filter (belongs j) (trace (advance i t' evs w))
            = from_option (script j) [] (tasks (advance i t' evs w) !! j).
Proof.
  intros Hp Hi Hown Hscript j. cbn [advance emit setTasks trace tasks].
  rewrite List.filter_app, Hp.
  destruct (decide (i = j)) as [<-|Hne].
  - rewrite list_lookup_insert_eq by (eapply lookup_lt_Some; eassumption).
    rewrite Hi, (filter_own i evs Hown). cbn [from_option]. congruence.
  - rewrite list_lookup_insert_ne by assumption.
    rewrite (filter_other i j evs Hne Hown). apply app_nil_r.
Qed.

Section CycleFacts.
Context `{Chalk} `{DateFns}.

Lemma invariant_call d : cycle_invariant d (fetchPipelines d).
Proof.
  split; simpl.
  - intros i. reflexivity.
  - exists []. split; [reflexivity | intros []].
  - constructor.
  - split; [reflexivity|]. split; [reflexivity|].
    intros [Hd|[]]. discriminate Hd.
Qed.

Lemma not_in_app_foreign (e : event) (l evs : list event) :
  ~ In e l -> ~ In e evs -> ~ In e (l ++ evs).
Proof. intros Hl He Hin. apply in_app_or in Hin. tauto. Qed.

Lemma first_emit (tr evs : list event) :
  (exists rest, tr = EvListPipelines :: rest /\ ~ In EvListPipelines rest) ->
  ~ In EvListPipelines evs ->
  exists rest,
    (tr ++ evs)%list = EvListPipelines :: rest /\ ~ In EvListPipelines rest.
Proof.
  intros (rest & -> & Hrest) Hevs. exists (rest ++ evs)%list.
  split; [reflexivity | apply not_in_app_foreign; assumption].
Qed.

(** [Promise.all] fulfilled: the rows are published. *)
Lemma invariant_settle d now w :
  cycle_invariant d w -> cycle_invariant d (settle now w).
Proof.
  intros Hinv. unfold settle.
  destruct (promise w) eqn:Hp; try exact Hinv.
  destruct (allFulfilled (tasks w)) as [outs|] eqn:Hall; [|exact Hinv].
  destruct Hinv as [Hprot Hfirst Hwatched _].
  split; cbn [publish emit setPromise setDash trace tasks promise dash].
  - intros i. rewrite List.filter_app, Hprot. cbn. apply app_nil_r.
  - apply first_emit; [exact Hfirst|].
    cbn. intros [Hd|[Hd|[Hd|[]]]]; discriminate Hd.
  - exact Hwatched.
  - apply mapM_is_Some. unfold allFulfilled in Hall. rewrite Hall. eauto.
Qed.

(** [watched.map]: every promise has asked for its token. *)
Lemma invariant_spawn d w ws :
  cycle_invariant d w ->
  promise w = AwaitList ->
  Forall (fun pp => isWatched pp = true) ws ->
  cycle_invariant d (spawn ws w).
Proof.
  intros [Hprot Hfirst _ Hstate] Hp Hws. rewrite Hp in Hstate.
  destruct Hstate as (Hnil & Hdash & Hdata).
  split; cbn [spawn emit setTasks setPromise trace tasks promise dash].
  - intros i. rewrite List.filter_app, Hprot, Hnil. cbn [lookup from_option].
    rewrite lookup_nil. cbn [from_option app].
    rewrite imap_seq_0, filter_tokens, list_lookup_fmap.
    destruct (ws !! i) as [pp|] eqn:Hi; cbn.
    + apply lookup_lt_Some in Hi. rewrite decide_True by lia. reflexivity.
    + apply lookup_ge_None in Hi. rewrite decide_False by lia. reflexivity.
  - apply first_emit; [exact Hfirst|].
    rewrite imap_seq_0. intros Hin. apply in_map_iff in Hin.
    destruct Hin as (k & Hk & _). discriminate Hk.
  - apply Forall_fmap. exact Hws.
  - split; [|split; [exact Hdash|]].
    + apply Forall_fmap. apply Forall_true. intros pp. reflexivity.
    + apply not_in_app_foreign; [exact Hdata|].
      rewrite imap_seq_0. intros Hin. apply in_map_iff in Hin.
      destruct Hin as (k & Hk & _). discriminate Hk.
Qed.

(** One promise moves on: what the move keeps of the invariant,
    whatever happens to the chain afterwards. *)
Lemma invariant_advance d w i t t' evs :
  cycle_invariant d w ->
  tasks w !! i = Some t ->
  fulfilment t = None ->
  taskSummary t' = taskSummary t ->
  Forall (fun e => eventTask e = Some i) evs ->
  script i t' = (script i t ++ evs)%list ->
  let w' := advance i t' evs w in
  (forall j, List.filter (belongs j) (trace w')
             = from_option (script j) [] (tasks w' !! j)) /\
  (exists rest, trace w' = EvListPipelines :: rest /\
                ~ In EvListPipelines rest) /\
  Forall (fun t => isWatched (taskSummary t) = true) (tasks w') /\
  promise w' = promise w /\
  promise w <> AwaitList /\ promise w <> Published /\
  dash w' = dash w /\
  (~ In EvSetData (trace w) -> ~ In EvSetData (trace w')) /\
  (failed t' = false ->
   Forall (fun t => failed t = false) (tasks w) ->
   Forall (fun t => failed t = false) (tasks w')).
Proof.
  intros [Hprot Hfirst Hwatched Hstate] Hi Hnf Hpp Hown Hscript w'.
  assert (Hforeign : forall e, eventTask e = None -> ~ In e evs).
  { intros e He Hin. rewrite Forall_forall in Hown.
    apply list_elem_of_In, Hown in Hin. congruence. }
  split; [apply (protocol_advance w i t t' evs); assumption|].
  split; [apply first_emit; [exact Hfirst | apply Hforeign; reflexivity]|].
  split.
  { apply Forall_insert; [exact Hwatched|]. rewrite Hpp.
    rewrite Forall_lookup in Hwatched. exact (Hwatched i t Hi). }
  split; [reflexivity|].
  split.
  { intros Hp. rewrite Hp in Hstate. destruct Hstate as (Hnil & _).
    rewrite Hnil, lookup_nil in Hi. discriminate Hi. }
  split.
  { intros Hp. rewrite Hp in Hstate. rewrite Forall_lookup in Hstate.
    destruct (Hstate i t Hi) as [out Hout]. congruence. }
  split; [reflexivity|].
  split.
  { intros Hdata. apply not_in_app_foreign; [exact Hdata|].
    apply Hforeign. reflexivity. }
  intros Hok Hall. apply Forall_insert; assumption.
Qed.

(** The promise of a pipeline is rejected, and [Promise.all] with it. *)
Lemma invariant_reject d w i t t' evs err :
  cycle_invariant d w ->
  tasks w !! i = Some t ->
  fulfilment t = None ->
  taskSummary t' = taskSummary t ->
  Forall (fun e => eventTask e = Some i) evs ->
  script i t' = (script i t ++ evs)%list ->
  cycle_invariant d (reject err (advance i t' evs w)).
Proof.
  intros Hinv Hi Hnf Hpp Hown Hscript.
  destruct (invariant_advance d w i t t' evs Hinv Hi Hnf Hpp Hown Hscript)
    as (Hprot & Hfirst & Hwatched & Hp & Hnl & Hnp & Hdash & Hdata & _).
  destruct Hinv as [_ _ _ Hstate].
  unfold reject. rewrite Hp.
  destruct (promise w) eqn:Hpw; try congruence.
  - split; try assumption. cbn [setPromise promise dash trace].
    destruct Hstate as (_ & Hd & Hnd). split; [congruence | auto].
  - split; try assumption. rewrite Hp.
    destruct Hstate as (Hd & Hnd). split; [congruence | auto].
Qed.

(** The promise of a pipeline moves on without failing. *)
Lemma invariant_progress d w i t t' evs :
  cycle_invariant d w ->
  tasks w !! i = Some t ->
  fulfilment t = None ->
  taskSummary t' = taskSummary t ->
  failed t' = false ->
  Forall (fun e => eventTask e = Some i) evs ->
  script i t' = (script i t ++ evs)%list ->
  cycle_invariant d (advance i t' evs w).
Proof.
  intros Hinv Hi Hnf Hpp Hok Hown Hscript.
  destruct (invariant_advance d w i t t' evs Hinv Hi Hnf Hpp Hown Hscript)
    as (Hprot & Hfirst & Hwatched & Hp & Hnl & Hnp & Hdash & Hdata & Hfail).
  destruct Hinv as [_ _ _ Hstate].
  split; try assumption. rewrite Hp.
  destruct (promise w) eqn:Hpw; try congruence.
  - destruct Hstate as (Hall & Hd & Hnd).
    split; [auto | split; [congruence | auto]].
  - destruct Hstate as (Hd & Hnd). split; [congruence | auto].
Qed.

Lemma watched_all_watched output ws :
  watched output = Some ws -> Forall (fun pp => isWatched pp = true) ws.
Proof.
  unfold watched. destruct (pipelines output) as [ps|]; [|discriminate].
  intros [= <-]. apply Forall_forall. intros pp Hin.
  apply list_elem_of_In, List.filter_In in Hin. tauto.
Qed.

(** The promise of pipeline [i] must be waiting for the settlement. *)
Ltac awaited Hstep Hi :=
  match type of Hstep with
  | context [tasks ?w !! ?i] =>
      destruct (tasks w !! i) as [[?pp|?pp|?pp ?out|?pp ?e|?pp ?e]|] eqn:Hi;
      try discriminate Hstep; injection Hstep as <-
  end.

Lemma invariant_step d now w a w' :
  cycle_invariant d w -> step now w a = Some w' -> cycle_invariant d w'.
Proof.
  intros Hinv Hstep. destruct a as [output|err|i r|i err|i output|i err];
    cbn [step] in Hstep.
  - destruct (promise w) eqn:Hp; try discriminate.
    destruct (watched output) as [ws|] eqn:Hw; injection Hstep as <-.
    + apply invariant_settle, invariant_spawn; try assumption.
      eapply watched_all_watched; eassumption.
    + destruct Hinv as [Hprot Hfirst Hwatched Hstate]. rewrite Hp in Hstate.
      destruct Hstate as (Hnil & _).
      split; cbn [publish emit setPromise setDash trace tasks promise dash].
      * intros i. rewrite List.filter_app, Hprot. cbn. apply app_nil_r.
      * apply first_emit; [exact Hfirst|].
        cbn. intros [Hd|[Hd|[Hd|[]]]]; discriminate Hd.
      * exact Hwatched.
      * rewrite Hnil. constructor.
  - destruct (promise w) eqn:Hp; try discriminate. injection Hstep as <-.
    destruct Hinv as [Hprot Hfirst Hwatched Hstate]. rewrite Hp in Hstate.
    split; try assumption. cbn. tauto.
  - awaited Hstep Hi.
    eapply invariant_progress; try eassumption; try reflexivity.
    repeat constructor.
  - awaited Hstep Hi.
    eapply invariant_reject; try eassumption; try reflexivity.
    repeat constructor.
  - awaited Hstep Hi. apply invariant_settle.
    eapply invariant_progress; try eassumption; try reflexivity.
    repeat constructor.
  - awaited Hstep Hi.
    eapply invariant_reject; try eassumption; try reflexivity.
    repeat constructor.
Qed.

Lemma reachable_invariant d w : reachable d w -> cycle_invariant d w.
Proof.
  induction 1 as [|now w a w' _ IH Hstep].
  - apply invariant_call.
  - eapply invariant_step; eassumption.
Qed.

Lemma run_reachable d script : forall w,
  reachable d w -> reachable d (run w script).
Proof.
  induction script as [|[now a] script IH]; intros w Hw; cbn [run].
  - exact Hw.
  - destruct (step now w a) as [w'|] eqn:Hstep.
    + apply IH. eapply reach_step; eassumption.
    + apply IH. exact Hw.
Qed.

End CycleFacts.

(** [/^pat/i] matches exactly the strings that start, up to case, with
    [pat]. *)
Lemma match_prefix_i_spec pat : forall s,
  match_prefix_i pat s = true <->
  exists pre rest, s = pre ++ rest /\ upper pre = upper pat.
Proof.
  induction pat as [|p pat IH]; intros s.
  - split; [|destruct s; reflexivity].
    intros _. exists "", s. split; reflexivity.
  - destruct s as [|c s]; cbn [match_prefix_i].
    + split; [discriminate|].
      intros (pre & rest & Hs & Hu). destruct pre as [|c pre]; discriminate.
    + rewrite andb_true_iff, IH. split.
      * intros (Hc & pre & rest & -> & Hu). apply Ascii.eqb_eq in Hc.
        exists (String c pre), rest. split; [reflexivity|].
        cbn [upper]. congruence.
      * intros (pre & rest & Hs & Hu).
        destruct pre as [|c' pre]; [discriminate|].
        cbn [upper] in Hu. injection Hu as Hc Hu. injection Hs as -> ->.
        split; [apply Ascii.eqb_eq; congruence|].
        exists pre, rest. split; [reflexivity | assumption].
Qed.

Lemma isWatched_spec pp :
  isWatched pp = true <->
  exists n pre rest,
    name pp = Some n /\ n = pre ++ rest /\ upper pre = "INTEGRATION".
Proof.
  unfold isWatched. destruct (name pp) as [n|].
  - rewrite match_prefix_i_spec. split.
    + intros (pre & rest & Hn & Hu). exists n, pre, rest. auto.
    + intros (n' & pre & rest & [= <-] & Hn & Hu). exists pre, rest. auto.
  - split; [discriminate|]. intros (n & pre & rest & Hn & _). discriminate.
Qed.

Lemma script_details i n j t :
  In (EvGetPipelineState i n) (script j t) -> n = name (taskSummary t).
Proof.
  destruct t; cbn [script taskSummary In]; unfold removeToken, getPipelineDetails;
    intuition congruence.
Qed.

Lemma script_tokens l i count j t :
  In (EvRemoveTokens l i count) (script j t) -> l = limiter /\ count = 1.
Proof.
  destruct t; cbn [script In]; unfold removeToken, getPipelineDetails;
    intuition congruence.
Qed.

Section CycleClaims.
Context `{Chalk} `{DateFns}.

(** An event of the trace that is about a task is in its script. *)
Lemma event_in_script d w e i :
  reachable d w -> In e (trace w) -> eventTask e = Some i ->
  exists t, tasks w !! i = Some t /\ In e (script i t).
Proof.
  intros Hr Hin He. destruct (reachable_invariant d w Hr) as [Hprot _ _ _].
  assert (Hf : In e (List.filter (belongs i) (trace w))).
  { apply List.filter_In. split; [assumption|].
    unfold belongs. rewrite He. apply Nat.eqb_refl. }
  rewrite Hprot in Hf. destruct (tasks w !! i) as [t|]; [|destruct Hf].
  exists t. split; [reflexivity | exact Hf].
Qed.

(** C4. The watched pipelines are those of the list whose name starts,
    up to case, with "integration"; the list of the specification keeps
    its first two names; and in every state of a cycle the details
    asked for are those of a pipeline with such a name. *)
Theorem watched_is_the_integration_prefix :
  (forall output ps,
     pipelines output = Some ps ->
     exists ws,
       watched output = Some ws /\
       forall pp,
         In pp ws <->
         In pp ps /\
         exists n pre rest,
           name pp = Some n /\ n = pre ++ rest /\ upper pre = "INTEGRATION") /\
  watched {| pipelines := Some [listed "integration-a"; listed "Integration-B";
                                listed "other-c"] |}
  = Some [listed "integration-a"; listed "Integration-B"] /\
  (forall d w i n,
     reachable d w ->
     In (EvGetPipelineState i n) (trace w) ->
     exists s pre rest,
       n = Some s /\ s = pre ++ rest /\ upper pre = "INTEGRATION").
Proof.
  split; [|split; [reflexivity|]].
  - intros output ps Hps. exists (List.filter isWatched ps).
    unfold watched. rewrite Hps. split; [reflexivity|].
    intros pp. rewrite List.filter_In, isWatched_spec. reflexivity.
  - intros d w i n Hr Hin.
    destruct (event_in_script d w _ i Hr Hin eq_refl) as (t & Hi & Hscript).
    destruct (reachable_invariant d w Hr) as [_ _ Hwatched _].
    rewrite Forall_lookup in Hwatched. specialize (Hwatched i t Hi).
    apply isWatched_spec in Hwatched.
    destruct Hwatched as (s & pre & rest & Hname & Hs & Hu).
    exists s, pre, rest. split; [|auto].
    apply script_details in Hscript. congruence.
Qed.

(** C5. In every state of a cycle: the list was asked for first, once
    and before any token; a token is only ever asked of the limiter of 5
    per second, one at a time and for a watched pipeline; and what
    concerns a pipeline before its details are asked for is exactly one
    request of a token and the grant of it. *)
Theorem details_follow_one_token d w :
  reachable d w ->
  (exists rest,
     trace w = EvListPipelines :: rest /\ ~ In EvListPipelines rest) /\
  (forall l i count,
     In (EvRemoveTokens l i count) (trace w) ->
     l = limiter /\ count = 1 /\ is_Some (tasks w !! i)) /\
  (forall pre i n post,
     trace w = (pre ++ EvGetPipelineState i n :: post)%list ->
     List.filter (belongs i) pre
     = [EvRemoveTokens limiter i 1; EvTokenGranted i]) /\
  tokensPerInterval limiter = 5 /\ interval limiter = Second.
Proof.
  intros Hr. pose proof (reachable_invariant d w Hr) as [Hprot Hfirst _ _].
  split; [exact Hfirst|]. split; [|split; [|split; reflexivity]].
  - intros l i count Hin.
    destruct (event_in_script d w _ i Hr Hin eq_refl) as (t & Hi & Hscript).
    rewrite Hi. apply script_tokens in Hscript. destruct Hscript.
    eauto.
  - intros pre i n post Htrace. specialize (Hprot i).
    rewrite Htrace, List.filter_app in Hprot. cbn [List.filter] in Hprot.
    unfold belongs at 2 in Hprot. cbn [eventTask] in Hprot.
    rewrite Nat.eqb_refl in Hprot.
    destruct (tasks w !! i) as [t|]; cbn [from_option] in Hprot.
    + destruct t; cbn [script] in Hprot;
        destruct (List.filter (belongs i) pre) as [|e1 [|e2 [|e3 [|e4 es]]]];
        simplify_eq/=; try reflexivity;
        destruct es; discriminate.
    + destruct (List.filter (belongs i) pre); discriminate.
Qed.

(** C6, amended. Nothing catches the rejection of a detail fetch: in
    every state of a cycle in which one has failed, the chain is
    rejected, no row was given to the table, and the dashboard is the
    one the cycle started on. *)
Theorem failed_detail_fetch_publishes_nothing d w i pp err :
  reachable d w ->
  tasks w !! i = Some (DetailsFailed pp err) ->
  dash w = d /\ ~ In EvSetData (trace w) /\ exists e, promise w = Rejected e.
Proof.
  intros Hr Hi. destruct (reachable_invariant d w Hr) as [_ _ _ Hstate].
  destruct (promise w) as [| | |e].
  - destruct Hstate as (Hnil & _). rewrite Hnil, lookup_nil in Hi.
    discriminate Hi.
  - destruct Hstate as (Hall & _). rewrite Forall_lookup in Hall.
    specialize (Hall i _ Hi). discriminate Hall.
  - rewrite Forall_lookup in Hstate. destruct (Hstate i _ Hi) as [out Hout].
    discriminate Hout.
  - destruct Hstate as (Hd & Hnd). eauto.
Qed.

End CycleClaims.

Lemma watched_witness :
  reachable initialDashboard (run (fetchPipelines initialDashboard) allAnswered) /\
  In (EvGetPipelineState 1 (Some "Integration-B"))
     (trace (run (fetchPipelines initialDashboard) allAnswered)) /\
  exists s pre rest,
    Some "Integration-B" = Some s /\ s = pre ++ rest /\
    upper pre = "INTEGRATION".
Proof.
  assert (Hr : reachable initialDashboard
                 (run (fetchPipelines initialDashboard) allAnswered))
    by (apply run_reachable, reach_call).
  assert (Hin : In (EvGetPipelineState 1 (Some "Integration-B"))
                  (trace (run (fetchPipelines initialDashboard) allAnswered)))
    by (vm_compute; auto 10).
  split; [exact Hr|]. split; [exact Hin|].
  exact (proj2 (proj2 watched_is_the_integration_prefix) _ _ _ _ Hr Hin).
Defined.

Lemma one_token_witness :
  reachable initialDashboard (run (fetchPipelines initialDashboard) allAnswered) /\
  List.filter (belongs 0)
    [EvListPipelines; removeToken 0; removeToken 1; removeToken 2;
     EvTokenGranted 1; EvGetPipelineState 1 (Some "Integration-B");
     EvTokenGranted 0]
  = [EvRemoveTokens limiter 0 1; EvTokenGranted 0].
Proof.
  assert (Hr : reachable initialDashboard
                 (run (fetchPipelines initialDashboard) allAnswered))
    by (apply run_reachable, reach_call).
  split; [exact Hr|].
  refine (proj1 (proj2 (proj2 (details_follow_one_token _ _ Hr)))
            _ 0 (Some "integration-a") _ _).
  vm_compute. reflexivity.
Defined.

Lemma failed_fetch_witness :
  reachable earlier (run (fetchPipelines earlier) oneFails) /\
  tasks (run (fetchPipelines earlier) oneFails) !! 1
  = Some (DetailsFailed (listed "Integration-B") "ThrottlingException") /\
  dash (run (fetchPipelines earlier) oneFails) = earlier /\
  ~ In EvSetData (trace (run (fetchPipelines earlier) oneFails)) /\
  exists e, promise (run (fetchPipelines earlier) oneFails) = Rejected e.
Proof.
  assert (Hr : reachable earlier (run (fetchPipelines earlier) oneFails))
    by (apply run_reachable, reach_call).
  assert (Hi : tasks (run (fetchPipelines earlier) oneFails) !! 1
               = Some (DetailsFailed (listed "Integration-B")
                         "ThrottlingException"))
    by reflexivity.
  split; [exact Hr|]. split; [exact Hi|].
  exact (failed_detail_fetch_publishes_nothing _ _ _ _ _ Hr Hi).
Defined.

(** C6 as stated fails: the second of three detail fetches is rejected,
    the two others are answered, and the table still shows the three
    rows of the cycle before, not the two rows of this one. *)
Lemma failed_fetch_drops_the_cycle :
  let w := run (fetchPipelines earlier) oneFails in
  map fulfilment (tasks w) = [Some broken; None; Some fresh] /\
  promise w = Rejected "ThrottlingException" /\
  tableData (dash w) = tableData earlier /\
  tableData (dash w)
  <> Some {| headers := ["Pipeline"; "Status"];
             data := map (fun p => summaryRow (mapPipeline 204 p))
                       [broken; fresh] |}.
Proof.
  cbv zeta. split; [reflexivity|]. split; [reflexivity|].
  split; [reflexivity|]. vm_compute. discriminate.
Qed.

(** ** The detail view *)

Lemma startsWith_spec p : forall s,
  startsWith s p = true <-> exists rest, s = p ++ rest.
Proof.
  unfold startsWith. induction p as [|c p IH]; intros s.
  - split; [intros _; exists s; reflexivity | destruct s; reflexivity].
  - destruct s as [|c' s]; cbn [String.prefix].
    + split; [discriminate | intros (rest & Hs); discriminate].
    + destruct (Ascii.ascii_dec c c') as [<-|Hne].
      * rewrite IH. split; intros (rest & Hs); exists rest.
        -- rewrite Hs. reflexivity.
        -- injection Hs as Hs. exact Hs.
      * split; [discriminate|]. intros (rest & Hs). injection Hs as Hc _.
        congruence.
Qed.

Lemma slice_prefix n : forall s,
  String.length (slice s 0 n) <= n /\
  (exists rest, s = slice s 0 n ++ rest) /\
  (String.length s <= n -> slice s 0 n = s).
Proof.
  unfold slice. rewrite Nat.sub_0_r.
  induction n as [|n IH]; intros s.
  - destruct s; cbn; (split; [lia|]); (split; [eexists; reflexivity|]);
      intros Hl; [reflexivity | lia].
  - destruct s as [|c s]; cbn [String.substring String.length].
    + split; [lia|]. split; [exists ""; reflexivity | reflexivity].
    + destruct (IH s) as (Hlen & (rest & Hrest) & Hshort).
      split; [lia|]. split.
      * exists rest.
        change (String c s = String c (String.substring 0 n s ++ rest)).
        f_equal. exact Hrest.
      * intros Hl. rewrite Hshort by lia. reflexivity.
Qed.

Section SelectFacts.
Context `{DateFns}.

Lemma each_app {A} (xs ys : list A) (f : A -> Handler unit) items :
  each (xs ++ ys) f items = (each xs f ;; each ys f) items.
Proof.
  revert items. induction xs as [|x xs IH]; intros items; cbn [each app].
  - reflexivity.
  - unfold bind in *.
    destruct (f x items) as [[[]|e] items']; [apply IH | reflexivity].
Qed.

(** The two nested loops visit the actions in the order of
    [stageActions]. *)
Lemma each_nested (stages : list StageState)
  (f : StageState -> ActionState -> Handler unit) items :
  each stages (fun stage => each (default [] (ss_actionStates stage)) (f stage))
    items
  = each (flat_map (fun stage => map (pair stage) (actionsOf stage)) stages)
      (fun sa => f (fst sa) (snd sa)) items.
Proof.
  revert items. induction stages as [|stage stages IH]; intros items.
  - reflexivity.
  - cbn [each flat_map]. rewrite each_app. unfold bind.
    assert (Hin : forall its,
      each (default [] (ss_actionStates stage)) (f stage) its
      = each (map (pair stage) (actionsOf stage))
          (fun sa => f (fst sa) (snd sa)) its).
    { unfold actionsOf. induction (default [] (ss_actionStates stage))
        as [|a acts IHa]; intros its; cbn [each map]; [reflexivity|].
      unfold bind. cbn [fst snd].
      destruct (f stage a its) as [[[]|e] its']; [apply IHa | reflexivity]. }
    rewrite Hin.
    destruct (each _ _ items) as [[[]|e] items']; [apply IH | reflexivity].
Qed.

Lemma addAction_complete now stage action time items :
  lastChange action = Some time ->
  addAction now stage action items
  = (Returned tt, (items ++ block now (stage, action))%list).
Proof.
  intros Ht. unfold addAction, block, actionStatus, lastChange in *.
  cbn [fst snd].
  destruct (as_latestExecution action) as [latest|]; [|discriminate].
  cbn in Ht. cbn. unfold bind, lift, add. cbn. rewrite Ht. cbn.
  rewrite <- !app_assoc. reflexivity.
Qed.

Lemma addAction_incomplete now stage action items :
  lastChange action = None ->
  addAction now stage action items
  = (Threw (fault action), (items ++ torso now (stage, action))%list).
Proof.
  intros Ht. unfold addAction, torso, fault, block, actionStatus, lastChange in *.
  cbn [fst snd].
  destruct (as_latestExecution action) as [latest|].
  - cbn in Ht. cbn. unfold bind, lift, add. cbn. rewrite Ht. reflexivity.
  - cbn. unfold bind, lift. cbn. rewrite app_nil_r. reflexivity.
Qed.

Lemma each_complete now (pairs : list (StageState * ActionState)) :
  (forall sa, In sa pairs -> is_Some (lastChange (snd sa))) ->
  forall items,
    each pairs (fun sa => addAction now (fst sa) (snd sa)) items
    = (Returned tt, (items ++ flat_map (block now) pairs)%list).
Proof.
  induction pairs as [|[stage action] pairs IH]; intros Hall items.
  - cbn. rewrite app_nil_r. reflexivity.
  - cbn [each flat_map]. unfold bind. cbn [fst snd].
    destruct (Hall (stage, action)) as [time Ht]; [left; reflexivity|].
    rewrite (addAction_complete now stage action time items Ht).
    rewrite IH by (intros; apply Hall; right; assumption).
    rewrite <- app_assoc. reflexivity.
Qed.

Lemma each_fault now (pre post : list (StageState * ActionState)) bad :
  (forall sa, In sa pre -> is_Some (lastChange (snd sa))) ->
  lastChange (snd bad) = None ->
  forall items,
    each (pre ++ bad :: post) (fun sa => addAction now (fst sa) (snd sa)) items
    = (Threw (fault (snd bad)),
       (items ++ flat_map (block now) pre ++ torso now bad)%list).
Proof.
  intros Hpre Hbad items. rewrite each_app. unfold bind at 1.
  rewrite (each_complete now pre Hpre). cbn [each]. unfold bind.
  destruct bad as [stage action]. cbn [fst snd] in *.
  rewrite (addAction_incomplete now stage action _ Hbad).
  rewrite <- app_assoc. reflexivity.
Qed.

(** The handler: the list is emptied, then filled from the pipeline
    found. *)
Lemma selectItem_unfold now stats content old :
  selectItem now stats content old
  = match findPipeline (selectedName content) stats with
    | Returned (Some p) =>
        each (stageActions p) (fun sa => addAction now (fst sa) (snd sa)) []
    | Returned None => (Returned tt, [])
    | Threw e => (Threw e, [])
    end.
Proof.
  unfold selectItem, bind, clearItems, lift.
  destruct (findPipeline _ stats) as [[p|]|e]; try reflexivity.
  unfold stageActions, stagesOf. apply each_nested.
Qed.

Lemma first_fault (pairs : list (StageState * ActionState)) sa :
  In sa pairs -> lastChange (snd sa) = None ->
  exists pre bad post,
    pairs = (pre ++ bad :: post)%list /\
    (forall sa', In sa' pre -> is_Some (lastChange (snd sa'))) /\
    lastChange (snd bad) = None.
Proof.
  induction pairs as [|x pairs IH]; intros Hin Hnone; [destruct Hin|].
  destruct (lastChange (snd x)) as [time|] eqn:Hx.
  - destruct Hin as [->|Hin]; [congruence|].
    destruct (IH Hin Hnone) as (pre & bad & post & -> & Hpre & Hbad).
    exists (x :: pre), bad, post. split; [reflexivity|]. split; [|assumption].
    intros sa' [<-|Hin']; [eauto | apply Hpre; assumption].
  - exists [], x, pairs. split; [reflexivity|]. split; [intros ? []|assumption].
Qed.

Lemma findPipeline_found key stats p :
  findPipeline key stats = Returned (Some p) ->
  In p stats /\ exists n rest, pipelineName p = Some n /\ n = key ++ rest.
Proof.
  induction stats as [|q stats IH]; cbn [findPipeline]; [discriminate|].
  destruct (pipelineName q) as [n|] eqn:Hn; cbn [deref]; [|discriminate].
  destruct (startsWith n key) eqn:Hs.
  - intros [= <-]. split; [left; reflexivity|].
    apply startsWith_spec in Hs. destruct Hs as (rest & Hrest). eauto.
  - intros Hf. destruct (IH Hf) as (Hin & Hp). split; [right|]; assumption.
Qed.

Lemma findPipeline_unique key stats p :
  (forall q, In q stats -> is_Some (pipelineName q)) ->
  In p stats ->
  (exists n rest, pipelineName p = Some n /\ n = key ++ rest) ->
  (forall q n rest,
     In q stats -> pipelineName q = Some n -> n = key ++ rest -> q = p) ->
  findPipeline key stats = Returned (Some p).
Proof.
  intros Hnamed Hin Hp Huniq.
  induction stats as [|q stats IH]; [destruct Hin|].
  cbn [findPipeline].
  destruct (Hnamed q) as [n Hn]; [left; reflexivity|]. rewrite Hn. cbn [deref].
  destruct (startsWith n key) eqn:Hs.
  - apply startsWith_spec in Hs. destruct Hs as (rest & Hrest).
    rewrite (Huniq q n rest); [reflexivity | left; reflexivity | assumption..].
  - destruct Hin as [->|Hin].
    + destruct Hp as (n' & rest & Hn' & Hrest).
      assert (Hs' : startsWith n key = true).
      { apply startsWith_spec. exists rest. congruence. }
      congruence.
    + apply IH; [|assumption|].
      * intros q' Hq'. apply Hnamed. right. assumption.
      * intros q' n' rest Hq'. apply Huniq. right. assumption.
Qed.

Lemma onSelectItem_unfold now content d :
  onSelectItem now content d
  = (fst (selectItem now (getStats d) content (detailItems d)),
     setDetailItems
       (snd (selectItem now (getStats d) content (detailItems d))) d).
Proof.
  unfold onSelectItem. destruct (selectItem _ _ _ _). reflexivity.
Qed.

(** The handler where nothing is absent. When the lookup finds a
    pipeline all of whose actions have a latest execution with the time
    of its last change, the handler empties the list and fills it, stage
    by stage and action by action in the order received, with the block
    of each action: stage name, action name and status; humanized time;
    link; an empty line. When the lookup finds nothing the list is left
    empty. The link is the revision URL, else the entity URL, else
    empty. *)
Theorem select_item_lists_the_actions now content d :
  (forall p,
     findPipeline (selectedName content) (getStats d) = Returned (Some p) ->
     (forall sa, In sa (stageActions p) -> is_Some (lastChange (snd sa))) ->
     onSelectItem now content d
     = (Returned tt,
        setDetailItems (flat_map (block now) (stageActions p)) d)) /\
  (findPipeline (selectedName content) (getStats d) = Returned None ->
   onSelectItem now content d = (Returned tt, setDetailItems [] d)) /\
  (forall action,
     link action
     = match as_revisionUrl action, as_entityUrl action with
       | Some url, _ => url
       | None, Some url => url
       | None, None => ""
       end).
Proof.
  split; [|split].
  - intros p Hfind Hall.
    rewrite onSelectItem_unfold, selectItem_unfold, Hfind.
    rewrite (each_complete now (stageActions p) Hall []). reflexivity.
  - intros Hfind. rewrite onSelectItem_unfold, selectItem_unfold, Hfind.
    reflexivity.
  - intros action. unfold link.
    destruct (as_revisionUrl action), (as_entityUrl action); reflexivity.
Qed.

(** C9. When an action of the pipeline found has no latest execution, or
    one without the time of its last change, the handler stops on an
    exception at the first such action: a TypeError in the first case, a
    RangeError in the second. The list then holds the blocks of the
    actions before it and at most the first line of its own. *)
Theorem absent_execution_breaks_the_view now content d p stage action :
  findPipeline (selectedName content) (getStats d) = Returned (Some p) ->
  In (stage, action) (stageActions p) ->
  as_latestExecution action = None \/
  (exists latest, as_latestExecution action = Some latest /\
                  ae_lastStatusChange latest = None) ->
  exists pre bad post,
    stageActions p = (pre ++ bad :: post)%list /\
    (forall sa, In sa pre -> is_Some (lastChange (snd sa))) /\
    lastChange (snd bad) = None /\
    onSelectItem now content d
    = (Threw (fault (snd bad)),
       setDetailItems (flat_map (block now) pre ++ torso now bad) d) /\
    length (torso now bad) <= 1.
Proof.
  intros Hfind Hin Habsent.
  assert (Hnone : lastChange (snd (stage, action)) = None).
  { unfold lastChange. cbn [snd].
    destruct Habsent as [->|(latest & -> & Hl)]; [reflexivity | exact Hl]. }
  destruct (first_fault _ _ Hin Hnone) as (pre & bad & post & Heq & Hpre & Hbad).
  exists pre, bad, post. split; [exact Heq|]. split; [exact Hpre|].
  split; [exact Hbad|]. split.
  - rewrite onSelectItem_unfold, selectItem_unfold, Hfind, Heq.
    rewrite (each_fault now pre post bad Hpre Hbad []). reflexivity.
  - unfold torso. destruct (as_latestExecution (snd bad)); cbn; lia.
Qed.

End SelectFacts.

Lemma select_item_witness :
  findPipeline (selectedName rowOfA) (getStats earlier)
  = Returned (Some broken) /\
  (forall sa, In sa (stageActions broken) -> is_Some (lastChange (snd sa))) /\
  onSelectItem 300 rowOfA earlier
  = (Returned tt,
     setDetailItems (flat_map (block 300) (stageActions broken)) earlier) /\
  length (flat_map (block 300) (stageActions broken)) = 8.
Proof.
  assert (Hfind : findPipeline (selectedName rowOfA) (getStats earlier)
                  = Returned (Some broken)) by reflexivity.
  assert (Hall : forall sa, In sa (stageActions broken) ->
                            is_Some (lastChange (snd sa))).
  { intros sa [<-|[<-|[]]]; cbn; eauto. }
  split; [exact Hfind|]. split; [exact Hall|]. split; [|reflexivity].
  exact (proj1 (select_item_lists_the_actions 300 rowOfA earlier)
           broken Hfind Hall).
Defined.

(** C7: the handler breaks the claim on an action that has never run.
    The second action of the pipeline selected has no latest execution:
    the handler lists the block of the first action and stops on a
    TypeError at [action.latestExecution!.status], where the mapping of
    [fetchPipelines] reads the same field with [?.]. The block of the
    second action is never listed. *)
Lemma never_run_action_stops_the_listing :
  findPipeline (selectedName rowOfD) (getStats earlier)
  = Returned (Some fresh) /\
  map (fun sa => as_actionName (snd sa)) (stageActions fresh)
  = [Some "Checkout"; Some "Release"] /\
  fst (onSelectItem 300 rowOfD earlier) = Threw (TypeError "status") /\
  detailItems (snd (onSelectItem 300 rowOfD earlier))
  = [ "Stage: Source" ++ tab ++ "Action: Checkout" ++ tab
      ++ "Status: Succeeded";
      tab ++ "Last Ran: some time ago";
      tab ++ "Link: https://console.aws.amazon.com/codebuild";
      "" ].
Proof. repeat split. Qed.

Lemma absent_execution_witness :
  findPipeline (selectedName rowOfD) (getStats earlier)
  = Returned (Some fresh) /\
  In (stageAt "Deploy" "InProgress" [neverRun "Release"], neverRun "Release")
     (stageActions fresh) /\
  as_latestExecution (neverRun "Release") = None /\
  exists pre bad post,
    stageActions fresh = (pre ++ bad :: post)%list /\
    (forall sa, In sa pre -> is_Some (lastChange (snd sa))) /\
    lastChange (snd bad) = None /\
    onSelectItem 300 rowOfD earlier
    = (Threw (fault (snd bad)),
       setDetailItems (flat_map (block 300) pre ++ torso 300 bad) earlier) /\
    length (torso 300 bad) <= 1.
Proof.
  assert (Hfind : findPipeline (selectedName rowOfD) (getStats earlier)
                  = Returned (Some fresh)) by reflexivity.
  assert (Hin : In (stageAt "Deploy" "InProgress" [neverRun "Release"],
                    neverRun "Release") (stageActions fresh))
    by (right; left; reflexivity).
  split; [exact Hfind|]. split; [exact Hin|]. split; [reflexivity|].
  exact (absent_execution_breaks_the_view 300 rowOfD earlier fresh
           _ _ Hfind Hin (or_introl eq_refl)).
Defined.

(** * Further properties *)

(** ** Strings *)

Lemma append_cons c (s s' : string) : String c s ++ s' = String c (s ++ s').
Proof. reflexivity. Qed.

Lemma length_append (s s' : string) :
  String.length (s ++ s') = String.length s + String.length s'.
Proof.
  induction s as [|c s IH]; [reflexivity|].
  change (S (String.length (s ++ s')) = S (String.length s + String.length s')).
  rewrite IH. reflexivity.
Qed.

Lemma length_spaces k : String.length (spaces k) = k.
Proof.
  induction k as [|k IH]; [reflexivity|].
  change (S (String.length (spaces k)) = S k). rewrite IH. reflexivity.
Qed.

Lemma padEnd_spaces s n : padEnd s n " " = s ++ spaces (n - String.length s).
Proof.
  unfold padEnd. f_equal.
  assert (Hrest : forall k, fill k "" " " = spaces k).
  { induction k as [|k IH]; [reflexivity|].
    cbn [fill spaces]. rewrite IH. reflexivity. }
  destruct (n - String.length s) as [|k]; [reflexivity|].
  cbn [fill spaces]. rewrite Hrest. reflexivity.
Qed.

Lemma hasSpace_append s s' :
  hasSpace (s ++ s') = hasSpace s || hasSpace s'.
Proof.
  induction s as [|c s IH]; [reflexivity|].
  change (Ascii.eqb c " " || hasSpace (s ++ s')
          = Ascii.eqb c " " || hasSpace s || hasSpace s').
  rewrite IH, orb_assoc. reflexivity.
Qed.

(** [split] on a space: the first field is what comes before the first
    space. *)
Lemma split_first_field s : forall rest,
  hasSpace s = false ->
  List.hd "" (split " " (s ++ String " " rest)) = s.
Proof.
  induction s as [|c s IH]; intros rest Hs.
  - reflexivity.
  - rewrite append_cons. cbn [split].
    cbn [hasSpace] in Hs. apply orb_false_iff in Hs. destruct Hs as (Hc & Hs).
    rewrite Hc. specialize (IH rest Hs).
    destruct (split " " (s ++ String " " rest)) as [|field fields];
      cbn in *; congruence.
Qed.

Lemma split_no_space s :
  hasSpace s = false -> split " " s = [s].
Proof.
  induction s as [|c s IH]; intros Hs; cbn [split]; [reflexivity|].
  cbn [hasSpace] in Hs. apply orb_false_iff in Hs. destruct Hs as (Hc & Hs).
  rewrite Hc, (IH Hs). reflexivity.
Qed.

Lemma split_shape s :
  exists field fields,
    split " " s = field :: fields /\ hasSpace field = false /\
    (fields = [] /\ s = field \/
     exists rest, s = field ++ String " " rest).
Proof.
  induction s as [|c s (field & fields & Hsplit & Hfield & Hs)]; cbn [split].
  - exists "", []. split; [reflexivity|]. split; [reflexivity|]. left. auto.
  - destruct (Ascii.eqb_spec c " ") as [->|Hne].
    + rewrite Hsplit. exists "", (field :: fields). split; [reflexivity|].
      split; [reflexivity|]. right. exists s. reflexivity.
    + rewrite Hsplit. exists (String c field), fields. split; [reflexivity|].
      split.
      { cbn [hasSpace]. rewrite Hfield.
        destruct (Ascii.eqb_spec c " "); [contradiction | reflexivity]. }
      destruct Hs as [(-> & ->)|(rest & ->)].
      * left. auto.
      * right. exists rest. reflexivity.
Qed.

(** The key of the lookup is the content of the row up to its first
    space: it holds no space, it is the whole content when this holds
    none, and behind a name without space it is this name. *)
Theorem selected_name_is_the_first_word :
  (forall content,
     hasSpace (selectedName content) = false /\
     (content = selectedName content \/
      exists rest, content = selectedName content ++ String " " rest)) /\
  (forall content, hasSpace content = false -> selectedName content = content) /\
  (forall n rest,
     hasSpace n = false -> selectedName (n ++ String " " rest) = n).
Proof.
  split; [|split].
  - intros content. unfold selectedName.
    destruct (split_shape content) as (field & fields & -> & Hfield & Hs).
    cbn [List.hd]. split; [exact Hfield|].
    destruct Hs as [(_ & ->)|(rest & ->)]; [left; reflexivity|].
    right. exists rest. reflexivity.
  - intros content Hs. unfold selectedName. rewrite (split_no_space _ Hs).
    reflexivity.
  - intros n rest Hn. apply split_first_field. exact Hn.
Qed.

(** ** Rows *)

Section RowExtras.
Context `{Chalk} `{DateFns}.

Lemma summaryRow_rowOf now p : summaryRow (mapPipeline now p) = rowOf p.
Proof.
  unfold rowOf. destruct (stageStates p) as [stages|] eqn:Hs.
  - apply summaryRow_stages. exact Hs.
  - unfold summaryRow, mapPipeline. cbn. rewrite Hs. reflexivity.
Qed.

(** Neither the clock nor the actions reach the table: two answers with
    the same name and the same statuses of stages, in the same order,
    have the same row, whenever they are mapped. *)
Theorem row_depends_on_name_and_stage_statuses now now' p q :
  pipelineName p = pipelineName q ->
  map stageStatus <$> stageStates p = map stageStatus <$> stageStates q ->
  summaryRow (mapPipeline now p) = summaryRow (mapPipeline now' q).
Proof.
  intros Hn Hs. rewrite !summaryRow_rowOf. unfold rowOf, nameCell.
  rewrite Hn.
  destruct (stageStates p) as [sp|], (stageStates q) as [sq|];
    cbn in Hs; try discriminate; [|reflexivity].
  injection Hs as ->. reflexivity.
Qed.

(** The text given to chalk is the label followed by spaces only. The
    label is ["Failed"] when the set holds it; else ["Succeeded"] when
    the set holds nothing else; else the first other status of the set.
    It is never cut: the text is 10 characters wide, or as wide as the
    label when this is longer. *)
Theorem status_cell_is_padded_never_cut (statuses : JsSet.t) :
  exists label,
    String.length (label ++ spaces (10 - String.length label))
    = Nat.max 10 (String.length label) /\
    (In "Failed" statuses /\ label = "Failed" /\
     colorizedStatus statuses
     = bgRed (label ++ spaces (10 - String.length label))
     \/
     ~ In "Failed" statuses /\
     (forall s, In s statuses -> s = "Succeeded") /\ label = "Succeeded" /\
     colorizedStatus statuses
     = bgGreen (label ++ spaces (10 - String.length label))
     \/
     ~ In "Failed" statuses /\
     (exists before after,
        statuses = (before ++ label :: after)%list /\
        (forall s, In s before -> s = "Succeeded") /\
        label <> "Succeeded") /\
     colorizedStatus statuses
     = bgBlue (label ++ spaces (10 - String.length label))).
Proof.
  assert (Hlen : forall label,
    String.length (label ++ spaces (10 - String.length label))
    = Nat.max 10 (String.length label)).
  { intros label. rewrite length_append, length_spaces. lia. }
  unfold colorizedStatus, JsSet.has.
  destruct (existsb (String.eqb "Failed") statuses) eqn:Hf.
  - exists "Failed". split; [apply Hlen|]. left.
    split; [apply JsSetFacts.existsb_eqb_In; exact Hf|].
    split; reflexivity.
  - assert (Hnf : ~ In "Failed" statuses).
    { intros Hin. apply JsSetFacts.existsb_eqb_In in Hin. congruence. }
    cbv zeta. unfold JsSet.delete, JsSet.size, JsSet.first.
    destruct (List.filter _ statuses) as [|label rest] eqn:Hfilter.
    + exists "Succeeded". split; [apply Hlen|]. right. left.
      split; [exact Hnf|]. split; [|split; reflexivity].
      intros s Hin. destruct (String.eqb_spec "Succeeded" s) as [<-|Hne];
        [reflexivity|].
      assert (Hs : In s (List.filter (fun y => negb (String.eqb "Succeeded" y))
                           statuses)).
      { apply List.filter_In. split; [exact Hin|].
        destruct (String.eqb_spec "Succeeded" s); [contradiction | reflexivity]. }
      rewrite Hfilter in Hs. destruct Hs.
    + exists label. split; [apply Hlen|]. right. right.
      split; [exact Hnf|]. split.
      * destruct (first_other _ _ _ Hfilter) as (before & after & Heq & Hb & Hne).
        exists before, after. auto.
      * cbn [length Nat.eqb hd_error default]. rewrite padEnd_spaces.
        reflexivity.
Qed.

(** A stage that has never run has no status. When it is the first
    stage that is not ["Succeeded"] and no stage is ["Failed"], the
    label of the pipeline is blank: ten spaces on blue. *)
Theorem unstarted_stage_gives_a_blank_label now p stages before after :
  stageStates p = Some stages ->
  map stageStatus stages = (before ++ "" :: after)%list ->
  (forall s, In s before -> s = "Succeeded") ->
  ~ In "Failed" after ->
  summaryRow (mapPipeline now p) = [nameCell p; bgBlue "          "].
Proof.
  intros Hs Hmap Hbefore Hafter.
  rewrite (summaryRow_stages now p stages Hs), colorizedStatus_of_list, Hmap.
  assert (Hnf : existsb (String.eqb "Failed") (before ++ "" :: after) = false).
  { rewrite existsb_app. cbn [existsb]. apply orb_false_iff. split.
    - apply not_true_is_false. intros Hin.
      apply JsSetFacts.existsb_eqb_In, Hbefore in Hin. discriminate Hin.
    - apply not_true_is_false. intros Hin. apply Hafter.
      apply JsSetFacts.existsb_eqb_In. exact Hin. }
  rewrite Hnf, List.filter_app.
  assert (Hb : List.filter (fun y => negb (String.eqb "Succeeded" y)) before = []).
  { clear -Hbefore. induction before as [|s before IH]; [reflexivity|].
    cbn [List.filter]. rewrite (Hbefore s) by (left; reflexivity).
    cbn. apply IH. intros s' Hin. apply Hbefore. right. exact Hin. }
  rewrite Hb. reflexivity.
Qed.

End RowExtras.

Lemma row_depends_witness :
  pipelineName broken = pipelineName (snapshot "integration-a"
    [stageAt "Compile" "Succeeded" []; stageAt "Ship" "Failed" []]) /\
  summaryRow (mapPipeline 0 broken)
  = summaryRow (mapPipeline 99
      (snapshot "integration-a"
         [stageAt "Compile" "Succeeded" []; stageAt "Ship" "Failed" []])).
Proof.
  split; [reflexivity|].
  exact (row_depends_on_name_and_stage_statuses 0 99 broken _ eq_refl eq_refl).
Defined.

Lemma unstarted_stage_witness :
  stageStates unstarted = Some (stagesOf unstarted) /\
  map stageStatus (stagesOf unstarted) = (["Succeeded"] ++ "" :: [])%list /\
  summaryRow (mapPipeline 0 unstarted) = [nameCell unstarted; bgBlue "          "].
Proof.
  split; [reflexivity|]. split; [reflexivity|].
  refine (unstarted_stage_gives_a_blank_label 0 unstarted (stagesOf unstarted)
            ["Succeeded"] [] eq_refl eq_refl _ _).
  - intros s [<-|[]]. reflexivity.
  - intros [].
Defined.

(** ** The lookup *)

Lemma passedOver_startsWith key q n :
  passedOver key q -> pipelineName q = Some n -> startsWith n key = false.
Proof.
  intros (n' & Hn' & Hno) Hn. apply not_true_is_false. intros Hs.
  apply startsWith_spec in Hs. destruct Hs as (rest & Hrest).
  apply (Hno rest). congruence.
Qed.

(** The answers passed over do not count. *)
Lemma findPipeline_skip key pre stats :
  Forall (passedOver key) pre ->
  findPipeline key (pre ++ stats) = findPipeline key stats.
Proof.
  induction 1 as [|q pre Hq _ IH]; [reflexivity|].
  cbn [app findPipeline]. destruct Hq as (n & Hn & Hno). rewrite Hn.
  cbn [deref]. rewrite (passedOver_startsWith key q n); [exact IH | | exact Hn].
  exists n. auto.
Qed.

Lemma findPipeline_shape key stats :
  match findPipeline key stats with
  | Returned (Some p) =>
      exists pre post n rest,
        stats = (pre ++ p :: post)%list /\ Forall (passedOver key) pre /\
        pipelineName p = Some n /\ n = key ++ rest
  | Returned None => Forall (passedOver key) stats
  | Threw e =>
      e = TypeError "startsWith" /\
      exists pre q post,
        stats = (pre ++ q :: post)%list /\ Forall (passedOver key) pre /\
        pipelineName q = None
  end.
Proof.
  induction stats as [|q stats IH]; cbn [findPipeline]; [constructor|].
  destruct (pipelineName q) as [n|] eqn:Hn; cbn [deref].
  - destruct (startsWith n key) eqn:Hs.
    + apply startsWith_spec in Hs. destruct Hs as (rest & Hrest).
      exists [], stats, n, rest. auto.
    + assert (Hq : passedOver key q).
      { exists n. split; [exact Hn|]. intros rest Hrest.
        assert (Ht : startsWith n key = true)
          by (apply startsWith_spec; eauto).
        congruence. }
      destruct (findPipeline key stats) as [[p|]|e].
      * destruct IH as (pre & post & m & rest & -> & Hpre & Hm & Hrest).
        exists (q :: pre), post, m, rest. auto.
      * constructor; assumption.
      * destruct IH as (-> & pre & q' & post & -> & Hpre & Hq').
        split; [reflexivity|]. exists (q :: pre), q', post. auto.
  - split; [reflexivity|]. exists [], q, stats. auto.
Qed.

(** The lookup returns the first stored answer whose name starts with
    the key, and looks at nothing behind it. It finds nothing when every
    stored answer has a name that does not start with the key, and it
    stops on a TypeError when it meets an answer without a name before
    any match. *)
Theorem lookup_returns_the_first_match key stats :
  (forall p,
     findPipeline key stats = Returned (Some p) <->
     exists pre post n rest,
       stats = (pre ++ p :: post)%list /\ Forall (passedOver key) pre /\
       pipelineName p = Some n /\ n = key ++ rest) /\
  (findPipeline key stats = Returned None <-> Forall (passedOver key) stats) /\
  (findPipeline key stats = Threw (TypeError "startsWith") <->
   exists pre q post,
     stats = (pre ++ q :: post)%list /\ Forall (passedOver key) pre /\
     pipelineName q = None).
Proof.
  pose proof (findPipeline_shape key stats) as Hshape.
  split; [|split].
  - intros p. split.
    + intros Hf. rewrite Hf in Hshape. exact Hshape.
    + intros (pre & post & n & rest & -> & Hpre & Hn & Hrest).
      rewrite (findPipeline_skip key pre _ Hpre). cbn [findPipeline].
      rewrite Hn. cbn [deref].
      assert (Hs : startsWith n key = true) by (apply startsWith_spec; eauto).
      rewrite Hs. reflexivity.
  - split.
    + intros Hf. rewrite Hf in Hshape. exact Hshape.
    + intros Hall. rewrite <- (app_nil_r stats).
      apply (findPipeline_skip key stats [] Hall).
  - split.
    + intros Hf. rewrite Hf in Hshape. tauto.
    + intros (pre & q & post & -> & Hpre & Hq).
      rewrite (findPipeline_skip key pre _ Hpre). cbn [findPipeline].
      rewrite Hq. reflexivity.
Qed.


(** A content that is empty or starts with a space gives the empty key,
    which every name starts with: the first stored answer is opened,
    when it has a name. *)
Theorem blank_content_opens_the_first_pipeline content p stats n :
  content = "" \/ (exists rest, content = String " " rest) ->
  pipelineName p = Some n ->
  findPipeline (selectedName content) (p :: stats) = Returned (Some p).
Proof.
  intros Hc Hn.
  assert (Hkey : selectedName content = "").
  { destruct Hc as [->|(rest & ->)]; reflexivity. }
  rewrite Hkey. cbn [findPipeline]. rewrite Hn. cbn [deref].
  assert (Hs : startsWith n "" = true) by (apply startsWith_spec; eauto).
  rewrite Hs. reflexivity.
Qed.

Section SelectExtras.
Context `{DateFns}.

(** Whatever the handler does next, and also when it stops on an
    exception, nothing of what the list showed before is left. *)
Theorem select_item_forgets_the_old_items now stats content old old' :
  selectItem now stats content old = selectItem now stats content old'.
Proof. rewrite !selectItem_unfold. reflexivity. Qed.

(** As long as no cycle has published, or when the last one published
    no answer, a selection leaves the detail list empty and raises
    nothing. *)
Theorem select_without_stats_only_clears now content d :
  store d !! "stats" = None \/ store d !! "stats" = Some [] ->
  onSelectItem now content d = (Returned tt, setDetailItems [] d).
Proof.
  intros Hstore.
  assert (Hstats : getStats d = []).
  { unfold getStats. destruct Hstore as [->| ->]; reflexivity. }
  rewrite onSelectItem_unfold, selectItem_unfold, Hstats. reflexivity.
Qed.

End SelectExtras.


Lemma blank_content_witness :
  pipelineName broken = Some "integration-a" /\
  findPipeline (selectedName "") (broken :: [healthy]) = Returned (Some broken).
Proof.
  split; [reflexivity|].
  exact (blank_content_opens_the_first_pipeline "" broken [healthy] _
           (or_introl eq_refl) eq_refl).
Defined.

Lemma select_without_stats_witness :
  store initialDashboard !! "stats" = None /\
  onSelectItem 300 rowOfA initialDashboard
  = (Returned tt, setDetailItems [] initialDashboard).
Proof.
  split; [reflexivity|].
  exact (select_without_stats_only_clears 300 rowOfA initialDashboard
           (or_introl eq_refl)).
Defined.

(** ** From the row to the lookup *)

Section RowSelection.
Context `{Chalk} `{DateFns} `{TableWidget}.

(** The key read off the row of a pipeline that has stages is its name
    cell, when this holds no space. *)
Lemma selectedName_row now p stages :
  stageStates p = Some stages ->
  hasSpace (nameCell p) = false ->
  selectedName (rowContent (summaryRow (mapPipeline now p))) = nameCell p.
Proof.
  intros Hs Hspace. rewrite (summaryRow_stages now p stages Hs).
  assert (Hlen : String.length (nameCell p) <= 30).
  { unfold nameCell. destruct (pipelineName p) as [n|]; cbn; [|lia].
    destruct (slice_prefix 30 n) as (Hlen & _). exact Hlen. }
  match goal with
  | |- context [rowContent (?cell :: ?cells)] =>
      destruct (rowContent_first cell cells Hlen) as (rest & ->)
  end.
  apply split_first_field. exact Hspace.
Qed.

(** C8, amended. The row of a pipeline that has stages starts with the
    first 30 characters of its name, and the key of a selection is the
    first word of the content of the row: this cell, when it holds no
    space. The lookup returns the first stored pipeline whose name starts
    with the key, and none when no stored name does. When the cell of the
    row selected holds no space and is the start of the name of one
    stored pipeline only, a lookup on the content of this row that
    returns, returns this pipeline; and it does return where every stored
    pipeline has a name. *)
Theorem row_selection_resolves_by_prefix :
  (forall now p stages n,
     stageStates p = Some stages -> pipelineName p = Some n ->
     exists cell status rest,
       summaryRow (mapPipeline now p) = [cell; status] /\
       String.length cell <= 30 /\
       n = cell ++ rest /\
       (String.length n <= 30 -> cell = n) /\
       (hasSpace cell = false ->
        selectedName (rowContent (summaryRow (mapPipeline now p))) = cell)) /\
  (forall content stats,
     (forall p,
        findPipeline (selectedName content) stats = Returned (Some p) ->
        exists pre post n rest,
          stats = (pre ++ p :: post)%list /\
          Forall (passedOver (selectedName content)) pre /\
          pipelineName p = Some n /\ n = selectedName content ++ rest) /\
     (findPipeline (selectedName content) stats = Returned None ->
      Forall (passedOver (selectedName content)) stats)) /\
  (forall now stats p stages q m tail,
     stageStates p = Some stages ->
     hasSpace (nameCell p) = false ->
     In q stats -> pipelineName q = Some m -> m = nameCell p ++ tail ->
     (forall q' m' tail',
        In q' stats -> pipelineName q' = Some m' ->
        m' = nameCell p ++ tail' -> q' = q) ->
     (forall r,
        findPipeline
          (selectedName (rowContent (summaryRow (mapPipeline now p)))) stats
        = Returned r ->
        r = Some q) /\
     ((forall q', In q' stats -> is_Some (pipelineName q')) ->
      findPipeline
        (selectedName (rowContent (summaryRow (mapPipeline now p)))) stats
      = Returned (Some q))).
Proof.
  split; [|split].
  - intros now p stages n Hs Hn.
    assert (Hcell : nameCell p = slice n 0 30).
    { unfold nameCell. rewrite Hn. reflexivity. }
    destruct (slice_prefix 30 n) as (Hlen & (rest & Hrest) & Hshort).
    exists (nameCell p),
      (colorizedStatus (JsSet.of_list (map stageStatus stages))), rest.
    split; [apply (summaryRow_stages now p stages Hs)|].
    rewrite Hcell. split; [exact Hlen|]. split; [exact Hrest|].
    split; [exact Hshort|].
    intros Hspace. rewrite <- Hcell.
    apply (selectedName_row now p stages Hs). rewrite Hcell. exact Hspace.
  - intros content stats.
    pose proof (findPipeline_shape (selectedName content) stats) as Hshape.
    split.
    + intros p Hf. rewrite Hf in Hshape. exact Hshape.
    + intros Hf. rewrite Hf in Hshape. exact Hshape.
  - intros now stats p stages q m tail Hs Hspace Hin Hm Hmt Huniq.
    rewrite (selectedName_row now p stages Hs Hspace).
    pose proof (findPipeline_shape (nameCell p) stats) as Hshape.
    assert (Hreturned : forall r,
              findPipeline (nameCell p) stats = Returned r -> r = Some q).
    { intros r Hf. rewrite Hf in Hshape. destruct r as [p0|].
      - destruct Hshape as (pre & post & n & rest & Hstats & _ & Hn & Hrest).
        f_equal. apply (Huniq p0 n rest); [|exact Hn | exact Hrest].
        rewrite Hstats. apply in_or_app. right. left. reflexivity.
      - rewrite List.Forall_forall in Hshape.
        destruct (Hshape q Hin) as (n & Hn & Hno).
        exfalso. apply (Hno tail). congruence. }
    split; [exact Hreturned|].
    intros Hnamed.
    destruct (findPipeline (nameCell p) stats) as [r|e] eqn:Hf.
    + rewrite (Hreturned r eq_refl). reflexivity.
    + destruct Hshape as (_ & pre & q' & post & Hstats & _ & Hnone).
      destruct (Hnamed q') as (n & Hn); [|congruence].
      rewrite Hstats. apply in_or_app. right. left. reflexivity.
Qed.

End RowSelection.

Lemma row_selection_witness :
  stageStates broken = Some (stagesOf broken) /\
  hasSpace (nameCell broken) = false /\
  In broken [healthy; broken] /\
  pipelineName broken = Some "integration-a" /\
  (forall q' m' tail',
     In q' [healthy; broken] -> pipelineName q' = Some m' ->
     m' = nameCell broken ++ tail' -> q' = broken) /\
  (forall q', In q' [healthy; broken] -> is_Some (pipelineName q')) /\
  findPipeline
    (selectedName (rowContent (summaryRow (mapPipeline 0 broken))))
    [healthy; broken]
  = Returned (Some broken).
Proof.
  assert (Hnamed : forall q', In q' [healthy; broken] ->
                              is_Some (pipelineName q')).
  { intros q [<-|[<-|[]]]; cbn; eauto. }
  assert (Hin : In broken [healthy; broken]) by (right; left; reflexivity).
  assert (Huniq : forall q' m' tail',
            In q' [healthy; broken] -> pipelineName q' = Some m' ->
            m' = nameCell broken ++ tail' -> q' = broken).
  { intros q m tail [<-|[<-|[]]] Hm Hmt; [|reflexivity].
    injection Hm as <-. discriminate Hmt. }
  split; [reflexivity|]. split; [reflexivity|]. split; [exact Hin|].
  split; [reflexivity|]. split; [exact Huniq|]. split; [exact Hnamed|].
  exact (proj2 (proj2 (proj2 row_selection_resolves_by_prefix) 0%Z
                  [healthy; broken] broken (stagesOf broken) broken
                  "integration-a" "" eq_refl eq_refl Hin eq_refl eq_refl
                  Huniq)
           Hnamed).
Defined.

(** C8 as stated fails where the program reads the row by its own
    rules. A pipeline without stages has a name and a row that shows
    none. And the key is the first word of the row: of two stored
    pipelines named "integration x" and "integration y", the row of the
    second displays "integration y", the start of its name only, and the
    lookup on this row returns the first. *)
Lemma first_word_opens_another_pipeline :
  pipelineName bare = Some "integration-c" /\
  summaryRow (mapPipeline 0 bare) = [] /\
  summaryRow (mapPipeline 0 spacedY) !! 0 = Some "integration y" /\
  (forall q m tail,
     In q [spacedX; spacedY] -> pipelineName q = Some m ->
     m = "integration y" ++ tail -> q = spacedY) /\
  findPipeline
    (selectedName (rowContent (summaryRow (mapPipeline 0 spacedY))))
    [spacedX; spacedY]
  = Returned (Some spacedX) /\
  spacedX <> spacedY.
Proof.
  split; [reflexivity|]. split; [reflexivity|]. split; [reflexivity|].
  split.
  { intros q m tail [<-|[<-|[]]] Hm Hmt; [|reflexivity].
    injection Hm as <-. discriminate Hmt. }
  split; [vm_compute; reflexivity | discriminate].
Qed.

(** ** The cycle, further *)

(** Which promise a settlement was for, and in which state. *)
Ltac settled Hstep Hi :=
  match type of Hstep with
  | context [tasks ?w !! ?i] =>
      destruct (tasks w !! i) as [[?pp|?pp|?pp ?out|?pp ?e|?pp ?e]|] eqn:Hi;
      try discriminate Hstep; injection Hstep as <-
  end.

Section CycleExtras.
Context `{Chalk} `{DateFns}.

Lemma publish_shown now outs w :
  dash (publish now outs w) = shown (dash w) outs.
Proof.
  unfold shown. cbn [publish emit setPromise setDash dash].
  rewrite map_map.
  rewrite (map_ext (fun p => summaryRow (mapPipeline now p)) rowOf)
    by (intros p; apply summaryRow_rowOf).
  reflexivity.
Qed.

(** A published cycle waits for nothing. *)
Lemma published_is_final d now w a :
  cycle_invariant d w -> promise w = Published -> step now w a = None.
Proof.
  intros [_ _ _ Hstate] Hp. rewrite Hp in Hstate.
  rewrite Forall_lookup in Hstate.
  destruct a as [output|err|i r|i err|i output|i err]; cbn [step];
    rewrite ?Hp; try reflexivity;
    destruct (tasks w !! i) as [t|] eqn:Hi; try reflexivity;
    destruct (Hstate i t Hi) as [out Hout];
    destruct t; try discriminate Hout; reflexivity.
Qed.

Lemma promise_reject err w :
  promise (reject err w) = Published -> promise w = Published.
Proof.
  unfold reject. destruct (promise w) eqn:Hp; cbn [setPromise promise];
    intros Hq; congruence.
Qed.

(** The one way into [Published]: [Promise.all] is fulfilled, or the
    list had no pipelines, on a chain that had published nothing. *)
Lemma step_to_published d now w a w' :
  cycle_invariant d w -> step now w a = Some w' -> promise w' = Published ->
  exists w1 outs,
    w' = publish now outs w1 /\
    allFulfilled (tasks w1) = Some outs /\
    dash w1 = d /\ ~ In EvSetData (trace w1).
Proof.
  intros Hinv Hstep Hp'.
  assert (Hnp : promise w <> Published).
  { intros Hp. rewrite (published_is_final d now w a Hinv Hp) in Hstep.
    discriminate Hstep. }
  assert (Hsettle : forall w1,
    cycle_invariant d w1 -> promise w1 <> Published ->
    promise (settle now w1) = Published ->
    exists w2 outs,
      settle now w1 = publish now outs w2 /\
      allFulfilled (tasks w2) = Some outs /\
      dash w2 = d /\ ~ In EvSetData (trace w2)).
  { intros w1 [_ _ _ Hstate] Hnp1. unfold settle.
    destruct (promise w1) eqn:Hp1; try congruence.
    destruct (allFulfilled (tasks w1)) as [outs|] eqn:Hall; [|congruence].
    intros _. exists w1, outs. tauto. }
  destruct a as [output|err|i r|i err|i output|i err]; cbn [step] in Hstep.
  - destruct (promise w) eqn:Hp; try discriminate.
    destruct (watched output) as [ws|] eqn:Hw; injection Hstep as <-.
    + apply Hsettle; [|discriminate|exact Hp'].
      apply invariant_spawn; [exact Hinv | exact Hp |].
      eapply watched_all_watched; eassumption.
    + destruct Hinv as [_ _ _ Hstate]. rewrite Hp in Hstate.
      destruct Hstate as (Hnil & Hd & Hnd).
      exists w, []. rewrite Hnil. auto.
  - destruct (promise w); try discriminate. injection Hstep as <-.
    discriminate Hp'.
  - settled Hstep Hi. contradiction.
  - settled Hstep Hi. apply promise_reject in Hp'. contradiction.
  - settled Hstep Hi. apply Hsettle; [|exact Hnp|exact Hp'].
    eapply invariant_progress; try eassumption; try reflexivity.
    repeat constructor.
  - settled Hstep Hi. apply promise_reject in Hp'. contradiction.
Qed.

(** What a published cycle has done. *)
Lemma published_state d w :
  reachable d w -> promise w = Published ->
  exists w1 now outs,
    w = publish now outs w1 /\
    allFulfilled (tasks w) = Some outs /\
    dash w1 = d /\ ~ In EvSetData (trace w1).
Proof.
  intros Hr Hp. destruct Hr as [|now w a w' Hr Hstep]; [discriminate Hp|].
  destruct (step_to_published d now w a w' (reachable_invariant d w Hr)
              Hstep Hp) as (w1 & outs & -> & Hall & Hd & Hnd).
  exists w1, now, outs. auto.
Qed.

(** A cycle publishes once, as its last act: its trace ends with
    [table.set], [screen.debug] and [table.setData], no [setData] comes
    before, and no later settlement changes anything. *)
Theorem publication_is_the_last_act d w :
  reachable d w -> promise w = Published ->
  (exists pre,
     trace w = (pre ++ [EvTableSet "stats"; EvDebug; EvSetData])%list /\
     ~ In EvSetData pre) /\
  (forall script, run w script = w).
Proof.
  intros Hr Hp. split.
  - destruct (published_state d w Hr Hp)
      as (w1 & now & outs & -> & _ & _ & Hnd).
    exists (trace w1). split; [reflexivity | exact Hnd].
  - intros answers. induction answers as [|[now a] answers IH]; [reflexivity|].
    cbn [run].
    rewrite (published_is_final d now w a (reachable_invariant d w Hr) Hp).
    exact IH.
Qed.

(** A list call that fails ends the cycle: whatever settles afterwards,
    no token is asked, no details, and the dashboard stays as it was. *)
Theorem failed_list_ends_the_cycle d now err script :
  run (fetchPipelines d) ((now, ListRejected err) :: script)
  = {| dash := d; promise := Rejected err; tasks := [];
       trace := [EvListPipelines] |}.
Proof.
  cbn [run step fetchPipelines promise setPromise dash tasks trace].
  induction script as [|[now' a] script IH]; [reflexivity|].
  cbn [run]. destruct a; cbn [step promise tasks]; rewrite ?lookup_nil; exact IH.
Qed.

(** When no listed pipeline is watched, or the answer has no list, the
    cycle publishes at once an empty table and an empty store, without
    asking for a token. *)
Theorem nothing_watched_empties_the_table d now output :
  (forall ps pp, pipelines output = Some ps -> In pp ps -> isWatched pp = false) ->
  step now (fetchPipelines d) (ListResolved output)
  = Some {| dash := shown d [];
            promise := Published;
            tasks := [];
            trace := [EvListPipelines; EvTableSet "stats"; EvDebug; EvSetData] |}.
Proof.
  intros Hnone. cbn [step fetchPipelines promise].
  assert (Hw : watched output = None \/ watched output = Some []).
  { unfold watched. destruct (pipelines output) as [ps|]; [|left; reflexivity].
    right. cbn. f_equal. specialize (Hnone ps).
    induction ps as [|pp ps IH]; [reflexivity|].
    cbn [List.filter]. rewrite (Hnone pp eq_refl) by (left; reflexivity).
    apply IH. intros pp' _ Hin. apply Hnone; [reflexivity | right; exact Hin]. }
  destruct Hw as [-> | ->]; reflexivity.
Qed.

(** The token of a pipeline refused by the limiter: its details are
    never asked for, the chain is rejected and nothing is published. *)
Theorem refused_token_asks_no_details d w i pp err :
  reachable d w ->
  tasks w !! i = Some (TokenFailed pp err) ->
  (forall n, ~ In (EvGetPipelineState i n) (trace w)) /\
  dash w = d /\ ~ In EvSetData (trace w) /\ exists e, promise w = Rejected e.
Proof.
  intros Hr Hi.
  destruct (reachable_invariant d w Hr) as [Hprot _ _ Hstate]. split.
  - intros n Hin.
    assert (Hf : In (EvGetPipelineState i n)
                   (List.filter (belongs i) (trace w))).
    { apply List.filter_In. split; [exact Hin|].
      unfold belongs. cbn. apply Nat.eqb_refl. }
    rewrite Hprot, Hi in Hf. cbn in Hf.
    destruct Hf as [Hf|[Hf|[]]]; discriminate Hf.
  - destruct (promise w) as [| | |e].
    + destruct Hstate as (Hnil & _). rewrite Hnil, lookup_nil in Hi.
      discriminate Hi.
    + destruct Hstate as (Hall & _). rewrite Forall_lookup in Hall.
      specialize (Hall i _ Hi). discriminate Hall.
    + rewrite Forall_lookup in Hstate.
      destruct (Hstate i _ Hi) as [out Hout]. discriminate Hout.
    + destruct Hstate as (Hd & Hnd). eauto.
Qed.



End CycleExtras.

Section BurstFacts.
Context `{Chalk} `{DateFns}.

(** The trace opens with the list call and one request of a token per
    promise; [rest] is what came after. *)
Lemma burst_more (w w' : world) rest evs :
  trace w = EvListPipelines
            :: ((removeToken <$> seq 0 (length (tasks w))) ++ rest)%list ->
  Forall (fun e => isTokenRequest e = false) rest ->
  length (tasks w') = length (tasks w) ->
  trace w' = (trace w ++ evs)%list ->
  Forall (fun e => isTokenRequest e = false) evs ->
  trace w' = EvListPipelines
             :: ((removeToken <$> seq 0 (length (tasks w'))) ++ rest ++ evs)%list /\
  Forall (fun e => isTokenRequest e = false) (rest ++ evs).
Proof.
  intros Htrace Hrest Hlen -> Hevs. rewrite Hlen, Htrace. split.
  - cbn [app]. rewrite <- app_assoc. reflexivity.
  - apply Forall_app. auto.
Qed.

Lemma settle_appends now w :
  tasks (settle now w) = tasks w /\
  (promise (settle now w) = promise w \/ promise (settle now w) = Published) /\
  exists evs,
    trace (settle now w) = (trace w ++ evs)%list /\
    Forall (fun e => isTokenRequest e = false) evs.
Proof.
  unfold settle.
  destruct (promise w) eqn:Hp;
    try (rewrite Hp; split; [reflexivity|]; split; [left; reflexivity|];
         exists []; rewrite app_nil_r; split; [reflexivity | constructor]).
  destruct (allFulfilled (tasks w)).
  - split; [reflexivity|]. split; [right; reflexivity|].
    eexists. split; [reflexivity | repeat constructor].
  - rewrite Hp. split; [reflexivity|]. split; [left; reflexivity|].
    exists []. rewrite app_nil_r. split; [reflexivity | constructor].
Qed.

Lemma reject_keeps err w :
  tasks (reject err w) = tasks w /\ trace (reject err w) = trace w /\
  (promise (reject err w) = promise w \/ exists e, promise (reject err w) = Rejected e).
Proof.
  unfold reject. destruct (promise w) eqn:Hp; cbn; rewrite ?Hp; eauto 6.
Qed.

Lemma burst_step d now w a w' :
  cycle_invariant d w ->
  (exists rest,
     trace w = EvListPipelines
               :: ((removeToken <$> seq 0 (length (tasks w))) ++ rest)%list /\
     Forall (fun e => isTokenRequest e = false) rest /\
     (promise w = AwaitList -> rest = [])) ->
  step now w a = Some w' ->
  exists rest,
    trace w' = EvListPipelines
               :: ((removeToken <$> seq 0 (length (tasks w'))) ++ rest)%list /\
    Forall (fun e => isTokenRequest e = false) rest /\
    (promise w' = AwaitList -> rest = []).
Proof.
  intros Hinv (rest & Htrace & Hrest & Hstart) Hstep.
  assert (Hmove : forall i t t' evs,
    tasks w !! i = Some t ->
    Forall (fun e => isTokenRequest e = false) evs ->
    promise w <> AwaitList /\
    length (tasks (advance i t' evs w)) = length (tasks w) /\
    trace (advance i t' evs w) = (trace w ++ evs)%list /\
    promise (advance i t' evs w) = promise w).
  { intros i t t' evs Hi Hevs. split; [|split; [apply length_insert | auto]].
    intros Hp. destruct Hinv as [_ _ _ Hstate]. rewrite Hp in Hstate.
    destruct Hstate as (Hnil & _). rewrite Hnil, lookup_nil in Hi.
    discriminate Hi. }
  assert (Hsettled : forall w1 rest1,
    trace w1 = EvListPipelines
               :: ((removeToken <$> seq 0 (length (tasks w1))) ++ rest1)%list ->
    Forall (fun e => isTokenRequest e = false) rest1 ->
    promise w1 <> AwaitList ->
    exists rest',
      trace (settle now w1)
      = EvListPipelines
        :: ((removeToken <$> seq 0 (length (tasks (settle now w1)))) ++ rest')%list /\
      Forall (fun e => isTokenRequest e = false) rest' /\
      (promise (settle now w1) = AwaitList -> rest' = [])).
  { intros w1 rest1 Ht1 Hr1 Hp1.
    destruct (settle_appends now w1) as (Htasks & Hpromise & evs & Htr & Hevs).
    destruct (burst_more w1 (settle now w1) rest1 evs Ht1 Hr1
                (f_equal length Htasks) Htr Hevs) as (Ht' & Hr').
    exists (rest1 ++ evs)%list. split; [exact Ht'|]. split; [exact Hr'|].
    intros Hp'. destruct Hpromise as [Hsame|Hpub]; congruence. }
  assert (Hrejected : forall err w1 rest1,
    trace w1 = EvListPipelines
               :: ((removeToken <$> seq 0 (length (tasks w1))) ++ rest1)%list ->
    Forall (fun e => isTokenRequest e = false) rest1 ->
    promise w1 <> AwaitList ->
    exists rest',
      trace (reject err w1)
      = EvListPipelines
        :: ((removeToken <$> seq 0 (length (tasks (reject err w1)))) ++ rest')%list /\
      Forall (fun e => isTokenRequest e = false) rest' /\
      (promise (reject err w1) = AwaitList -> rest' = [])).
  { intros err w1 rest1 Ht1 Hr1 Hp1.
    destruct (reject_keeps err w1) as (Htasks & Htr & Hpromise).
    exists rest1. rewrite Htasks, Htr. split; [exact Ht1|]. split; [exact Hr1|].
    intros Hp'. destruct Hpromise as [Hsame|(e & He)]; congruence. }
  assert (Hadvanced : forall i t t' evs,
    tasks w !! i = Some t ->
    Forall (fun e => isTokenRequest e = false) evs ->
    trace (advance i t' evs w)
    = EvListPipelines
      :: ((removeToken <$> seq 0 (length (tasks (advance i t' evs w))))
          ++ rest ++ evs)%list /\
    Forall (fun e => isTokenRequest e = false) (rest ++ evs) /\
    promise (advance i t' evs w) <> AwaitList).
  { intros i t t' evs Hi Hevs.
    destruct (Hmove i t t' evs Hi Hevs) as (Hp & Hlen & Htr & Hsame).
    destruct (burst_more w (advance i t' evs w) rest evs Htrace Hrest Hlen
                Htr Hevs) as (Ht' & Hr').
    split; [exact Ht'|]. split; [exact Hr' | congruence]. }
  destruct a as [output|err|i r|i err|i output|i err]; cbn [step] in Hstep.
  - destruct (promise w) eqn:Hp; try discriminate.
    destruct Hinv as [_ _ _ Hstate]. rewrite Hp in Hstate.
    destruct Hstate as (Hnil & _). rewrite (Hstart eq_refl), Hnil in Htrace.
    cbn in Htrace.
    destruct (watched output) as [ws|] eqn:Hw; injection Hstep as <-.
    + apply (Hsettled (spawn ws w) []); [|constructor|discriminate].
      cbn [spawn emit setTasks setPromise trace tasks].
      rewrite Htrace, imap_seq_0, length_map, app_nil_r. reflexivity.
    + exists [EvTableSet "stats"; EvDebug; EvSetData].
      cbn [publish emit setPromise setDash trace tasks promise].
      rewrite Htrace, Hnil. split; [reflexivity|].
      split; [repeat constructor | discriminate].
  - destruct (promise w) eqn:Hp; try discriminate. injection Hstep as <-.
    exists rest. cbn [setPromise trace tasks promise].
    split; [exact Htrace|]. split; [exact Hrest | discriminate].
  - settled Hstep Hi.
    destruct (Hadvanced i _ (AwaitDetails pp)
                [EvTokenGranted i; getPipelineDetails i pp] Hi)
      as (Ht' & Hr' & Hp'); [repeat constructor|].
    eexists. split; [exact Ht'|]. split; [exact Hr' | contradiction].
  - settled Hstep Hi.
    destruct (Hadvanced i _ (TokenFailed pp err) [EvTokenRefused i] Hi)
      as (Ht' & Hr' & Hp'); [repeat constructor|].
    eapply Hrejected; eassumption.
  - settled Hstep Hi.
    destruct (Hadvanced i _ (Fulfilled pp output) [EvDetailsResolved i] Hi)
      as (Ht' & Hr' & Hp'); [repeat constructor|].
    eapply Hsettled; eassumption.
  - settled Hstep Hi.
    destruct (Hadvanced i _ (DetailsFailed pp err) [EvDetailsRejected i] Hi)
      as (Ht' & Hr' & Hp'); [repeat constructor|].
    eapply Hrejected; eassumption.
Qed.

(** In every state of a cycle the trace is the list call, then one
    request of a token for each promise, then events that ask for no
    token. *)
Lemma burst_reachable d w :
  reachable d w ->
  exists rest,
    trace w = EvListPipelines
              :: ((removeToken <$> seq 0 (length (tasks w))) ++ rest)%list /\
    Forall (fun e => isTokenRequest e = false) rest /\
    (promise w = AwaitList -> rest = []).
Proof.
  induction 1 as [|now w a w' Hr IH Hstep].
  - exists []. split; [reflexivity|]. split; [constructor | reflexivity].
  - exact (burst_step d now w a w' (reachable_invariant d w Hr) IH Hstep).
Qed.

(** The promises of a cycle stand for the watched pipelines of the list
    answer, and stay so. *)
Lemma summaries_advance (ts : list task) i t t' :
  ts !! i = Some t -> taskSummary t' = taskSummary t ->
  map taskSummary (<[i := t']> ts) = map taskSummary ts.
Proof.
  intros Hi Hpp.
  change (taskSummary <$> <[i := t']> ts = taskSummary <$> ts).
  rewrite list_fmap_insert, Hpp. apply list_insert_id.
  rewrite list_lookup_fmap, Hi. reflexivity.
Qed.

Lemma step_summaries now w a w' :
  (promise w = AwaitList -> tasks w = []) ->
  step now w a = Some w' ->
  promise w' <> AwaitList /\
  map taskSummary (tasks w')
  = match a with
    | ListResolved output => watchedOf (Some output)
    | _ => map taskSummary (tasks w)
    end.
Proof.
  intros Hstart Hstep.
  assert (Hsettle : forall w1,
    promise w1 <> AwaitList ->
    promise (settle now w1) <> AwaitList /\
    tasks (settle now w1) = tasks w1).
  { intros w1 Hp1.
    destruct (settle_appends now w1) as (Ht & [Hp|Hp] & _);
      split; congruence. }
  assert (Hreject : forall err w1,
    promise w1 <> AwaitList ->
    promise (reject err w1) <> AwaitList /\
    tasks (reject err w1) = tasks w1).
  { intros err w1 Hp1.
    destruct (reject_keeps err w1) as (Ht & _ & [Hp|(e & Hp)]);
      split; congruence. }
  assert (Hwaiting : forall i t, tasks w !! i = Some t -> promise w <> AwaitList).
  { intros i t Hi Hp. rewrite (Hstart Hp), lookup_nil in Hi. discriminate Hi. }
  destruct a as [output|err|i r|i err|i output|i err]; cbn [step] in Hstep.
  - destruct (promise w) eqn:Hp; try discriminate.
    unfold watchedOf. cbn [mbind option_bind].
    destruct (watched output) as [ws|]; injection Hstep as <-.
    + destruct (Hsettle (spawn ws w)) as (Hp' & Ht'); [discriminate|].
      split; [exact Hp'|]. rewrite Ht'.
      cbn [spawn emit setTasks tasks default]. rewrite map_map.
      apply map_id.
    + split; [discriminate|].
      cbn [publish emit setPromise setDash tasks default].
      rewrite (Hstart eq_refl). reflexivity.
  - destruct (promise w) eqn:Hp; try discriminate. injection Hstep as <-.
    split; [discriminate | reflexivity].
  - settled Hstep Hi. split; [exact (Hwaiting i _ Hi)|].
    apply (summaries_advance _ i _ _ Hi). reflexivity.
  - settled Hstep Hi.
    destruct (Hreject err (advance i (TokenFailed pp err) [EvTokenRefused i] w))
      as (Hp' & Ht'); [exact (Hwaiting i _ Hi)|].
    split; [exact Hp'|]. rewrite Ht'.
    apply (summaries_advance _ i _ _ Hi). reflexivity.
  - settled Hstep Hi.
    destruct (Hsettle (advance i (Fulfilled pp output) [EvDetailsResolved i] w))
      as (Hp' & Ht'); [exact (Hwaiting i _ Hi)|].
    split; [exact Hp'|]. rewrite Ht'.
    apply (summaries_advance _ i _ _ Hi). reflexivity.
  - settled Hstep Hi.
    destruct (Hreject err
                (advance i (DetailsFailed pp err) [EvDetailsRejected i] w))
      as (Hp' & Ht'); [exact (Hwaiting i _ Hi)|].
    split; [exact Hp'|]. rewrite Ht'.
    apply (summaries_advance _ i _ _ Hi). reflexivity.
Qed.

(** A fulfilled promise holds the answer that was delivered for it. *)
Lemma step_fulfilled now w a w' i pp out :
  step now w a = Some w' ->
  tasks w' !! i = Some (Fulfilled pp out) ->
  tasks w !! i = Some (Fulfilled pp out) \/ a = DetailsResolved i out.
Proof.
  intros Hstep Hi'.
  assert (Hmoved : forall j t' evs,
    tasks (advance j t' evs w) !! i = Some (Fulfilled pp out) ->
    tasks w !! i = Some (Fulfilled pp out) \/ (i = j /\ t' = Fulfilled pp out)).
  { intros j t' evs. cbn [advance emit setTasks tasks].
    destruct (decide (j = i)) as [->|Hne].
    - intros Hl. apply list_lookup_insert_Some in Hl.
      destruct Hl as [(_ & Hl & _)|(Hne & _)]; [auto | contradiction].
    - rewrite list_lookup_insert_ne by assumption. auto. }
  destruct a as [output|err|j r|j err|j output|j err]; cbn [step] in Hstep.
  - destruct (promise w); try discriminate.
    destruct (watched output) as [ws|]; injection Hstep as <-.
    + destruct (settle_appends now (spawn ws w)) as (Ht & _). rewrite Ht in Hi'.
      cbn [spawn emit setTasks tasks] in Hi'.
      change (map AwaitToken ws) with (AwaitToken <$> ws) in Hi'.
      rewrite list_lookup_fmap in Hi'.
      destruct (ws !! i); discriminate Hi'.
    + left. exact Hi'.
  - destruct (promise w); try discriminate. injection Hstep as <-.
    left. exact Hi'.
  - settled Hstep Hj.
    destruct (Hmoved _ _ _ Hi') as [Hl|(_ & Ht)]; [auto | discriminate Ht].
  - settled Hstep Hj. destruct (reject_keeps err
      (advance j (TokenFailed pp0 err) [EvTokenRefused j] w)) as (Ht & _).
    rewrite Ht in Hi'.
    destruct (Hmoved _ _ _ Hi') as [Hl|(_ & Ht')]; [auto | discriminate Ht'].
  - settled Hstep Hj. destruct (settle_appends now
      (advance j (Fulfilled pp0 output) [EvDetailsResolved j] w)) as (Ht & _).
    rewrite Ht in Hi'.
    destruct (Hmoved _ _ _ Hi') as [Hl|(-> & Ht')]; [auto|].
    injection Ht' as _ ->. auto.
  - settled Hstep Hj. destruct (reject_keeps err
      (advance j (DetailsFailed pp0 err) [EvDetailsRejected j] w)) as (Ht & _).
    rewrite Ht in Hi'.
    destruct (Hmoved _ _ _ Hi') as [Hl|(_ & Ht')]; [auto | discriminate Ht'].
Qed.

Lemma run_after_list answers : forall w,
  promise w <> AwaitList ->
  map taskSummary (tasks (run w answers)) = map taskSummary (tasks w) /\
  forall i pp out,
    tasks (run w answers) !! i = Some (Fulfilled pp out) ->
    tasks w !! i = Some (Fulfilled pp out) \/
    exists now, In (now, DetailsResolved i out) answers.
Proof.
  induction answers as [|[now a] answers IH]; intros w Hp; cbn [run].
  - split; [reflexivity | auto].
  - destruct (step now w a) as [w'|] eqn:Hstep.
    + destruct (step_summaries now w a w' ltac:(congruence) Hstep)
        as (Hp' & Hsum).
      destruct (IH w' Hp') as (Hsum' & Hful). split.
      * rewrite Hsum', Hsum. destruct a; try reflexivity.
        cbn [step] in Hstep. destruct (promise w); congruence.
      * intros i pp out Hi. destruct (Hful i pp out Hi) as [Hi'|(now' & Hin)].
        -- destruct (step_fulfilled now w a w' i pp out Hstep Hi') as [Hw| ->].
           ++ left. exact Hw.
           ++ right. exists now. left. reflexivity.
        -- right. exists now'. right. exact Hin.
    + destruct (IH w Hp) as (Hsum' & Hful). split; [exact Hsum'|].
      intros i pp out Hi. destruct (Hful i pp out Hi) as [Hi'|(now' & Hin)].
      * left. exact Hi'.
      * right. exists now'. right. exact Hin.
Qed.

(** A cycle whose list call is answered with watched pipelines. *)
Lemma run_listed d now0 output ws answers :
  watched output = Some ws ->
  let w1 := settle now0 (spawn ws (fetchPipelines d)) in
  run (fetchPipelines d) ((now0, ListResolved output) :: answers)
  = run w1 answers /\
  promise w1 <> AwaitList /\
  tasks w1 = map AwaitToken ws.
Proof.
  intros Hw w1. cbn [run step fetchPipelines promise]. rewrite Hw.
  split; [reflexivity|].
  destruct (settle_appends now0 (spawn ws (fetchPipelines d)))
    as (Ht & [Hp|Hp] & _); subst w1; rewrite Ht, Hp;
    split; try discriminate; reflexivity.
Qed.

Lemma run_summaries d now0 output ws answers :
  watched output = Some ws ->
  map taskSummary
    (tasks (run (fetchPipelines d) ((now0, ListResolved output) :: answers)))
  = ws.
Proof.
  intros Hw. destruct (run_listed d now0 output ws answers Hw)
    as (-> & Hp & Ht).
  destruct (run_after_list answers _ Hp) as (-> & _).
  rewrite Ht, map_map. apply map_id.
Qed.

(** When a cycle publishes, the answers stored and the rows shown are,
    position by position, those of the watched pipelines of the list
    answer: at the place of the i-th watched pipeline stand the answer
    delivered for it and the row of this answer, whatever the order in
    which the tokens and the answers arrived. *)
Theorem published_rows_follow_the_list d now0 output ws answers w :
  watched output = Some ws ->
  w = run (fetchPipelines d) ((now0, ListResolved output) :: answers) ->
  promise w = Published ->
  exists outs,
    length outs = length ws /\
    (forall i pp,
       ws !! i = Some pp ->
       exists out now,
         outs !! i = Some out /\
         In (now, DetailsResolved i out) answers /\
         tasks w !! i = Some (Fulfilled pp out)) /\
    getStats (dash w) = outs /\
    (data <$> tableData (dash w)) = Some (map rowOf outs).
Proof.
  intros Hw Hrun Hp.
  assert (Hr : reachable d w).
  { rewrite Hrun. apply run_reachable, reach_call. }
  assert (Hsum : map taskSummary (tasks w) = ws).
  { rewrite Hrun. apply run_summaries. exact Hw. }
  destruct (published_state d w Hr Hp)
    as (w1 & now & outs & Hpub & Hall & _ & _).
  unfold allFulfilled in Hall. apply mapM_Some in Hall.
  exists outs. split; [|split; [|split]].
  - rewrite <- (Forall2_length _ _ _ Hall), <- Hsum, length_map. reflexivity.
  - intros i pp Hi.
    assert (Ht : exists t, tasks w !! i = Some t /\ taskSummary t = pp).
    { rewrite <- Hsum in Hi.
      change (map taskSummary (tasks w)) with (taskSummary <$> tasks w) in Hi.
      rewrite list_lookup_fmap in Hi.
      destruct (tasks w !! i) as [t|]; [|discriminate Hi].
      injection Hi as <-. eauto. }
    destruct Ht as (t & Ht & Hpp).
    destruct (Forall2_lookup_l _ _ _ _ _ Hall Ht) as (out & Hout & Hf).
    destruct t; try discriminate Hf. injection Hf as ->.
    cbn [taskSummary] in Hpp. subst pp0.
    destruct (run_listed d now0 output ws answers Hw) as (Heq & Hp1 & Ht1).
    rewrite Hrun, Heq in Ht.
    destruct (run_after_list answers _ Hp1) as (_ & Hful).
    destruct (Hful i pp out Ht) as [Hinit|(now' & Hin)].
    + rewrite Ht1 in Hinit.
      change (map AwaitToken ws) with (AwaitToken <$> ws) in Hinit.
      rewrite list_lookup_fmap in Hinit.
      destruct (ws !! i); discriminate Hinit.
    + exists out, now'. rewrite Hrun, Heq. auto.
  - rewrite Hpub. apply published_stats_are_stored.
  - rewrite Hpub, publish_shown. reflexivity.
Qed.

(** The tokens are asked for in one burst. In every state of a cycle
    whose list call was answered, the trace is the list call, then one
    request of a token for each watched pipeline of the answer, in the
    order of the list, then events that ask for no token; and the
    details asked for under the index of a request are those of the
    watched pipeline at this place of the list. *)
Theorem tokens_are_asked_in_one_burst d now0 output ws answers w :
  watched output = Some ws ->
  w = run (fetchPipelines d) ((now0, ListResolved output) :: answers) ->
  (exists rest,
     trace w = EvListPipelines
               :: ((removeToken <$> seq 0 (length ws)) ++ rest)%list /\
     Forall (fun e => isTokenRequest e = false) rest) /\
  (forall i n,
     In (EvGetPipelineState i n) (trace w) ->
     exists pp, ws !! i = Some pp /\ n = name pp).
Proof.
  intros Hw Hrun.
  assert (Hr : reachable d w).
  { rewrite Hrun. apply run_reachable, reach_call. }
  assert (Hsum : map taskSummary (tasks w) = ws).
  { rewrite Hrun. apply run_summaries. exact Hw. }
  split.
  - destruct (burst_reachable d w Hr) as (rest & Htrace & Hrest & _).
    exists rest. split; [|exact Hrest].
    rewrite Htrace, <- Hsum, length_map. reflexivity.
  - intros i n Hin.
    destruct (event_in_script d w _ i Hr Hin eq_refl) as (t & Hi & Hscript).
    apply script_details in Hscript. exists (taskSummary t).
    split; [|exact Hscript].
    rewrite <- Hsum.
    change (map taskSummary (tasks w)) with (taskSummary <$> tasks w).
    rewrite list_lookup_fmap, Hi. reflexivity.
Qed.

Lemma hasSpace_prefix s tail : hasSpace (s ++ tail) = false -> hasSpace s = false.
Proof.
  rewrite hasSpace_append. intros Hs. apply orb_false_iff in Hs. tauto.
Qed.

End BurstFacts.

Section RowToPipeline.
Context `{Chalk} `{DateFns} `{TableWidget}.

(** From the table to the lookup. After a cycle has published, the row
    at the place of a fulfilled pipeline that has stages is the row of
    its answer, and the lookup on the content of this row finds this
    answer, when its name holds no space, every answer has a name, and
    no other answer has a name that starts with the cell of the row. *)
Theorem published_row_opens_its_pipeline d w i pp p stages n :
  reachable d w -> promise w = Published ->
  tasks w !! i = Some (Fulfilled pp p) ->
  stageStates p = Some stages ->
  pipelineName p = Some n -> hasSpace n = false ->
  (forall j pp' q,
     tasks w !! j = Some (Fulfilled pp' q) -> is_Some (pipelineName q)) ->
  (forall j pp' q m tail,
     tasks w !! j = Some (Fulfilled pp' q) -> pipelineName q = Some m ->
     m = nameCell p ++ tail -> q = p) ->
  exists row,
    (tableData (dash w) ≫= fun td => data td !! i) = Some row /\
    (forall now, row = summaryRow (mapPipeline now p)) /\
    findPipeline (selectedName (rowContent row)) (getStats (dash w))
    = Returned (Some p).
Proof.
  intros Hr Hp Hi Hstages Hn Hspace Hnamed Huniq.
  destruct (published_state d w Hr Hp)
    as (w1 & now & outs & Hw & Hall & _ & _).
  assert (Hstats : getStats (dash w) = outs).
  { rewrite Hw. apply published_stats_are_stored. }
  unfold allFulfilled in Hall. apply mapM_Some in Hall.
  assert (Hout : outs !! i = Some p).
  { destruct (Forall2_lookup_l _ _ _ _ _ Hall Hi) as (out & Hout & Hf).
    injection Hf as <-. exact Hout. }
  assert (Hfrom : forall q, In q outs ->
            exists j pp', tasks w !! j = Some (Fulfilled pp' q)).
  { intros q Hq. apply list_elem_of_In, list_elem_of_lookup in Hq.
    destruct Hq as (j & Hj).
    destruct (Forall2_lookup_r _ _ _ _ _ Hall Hj) as (t & Ht & Hf).
    destruct t; try discriminate Hf. injection Hf as ->. eauto. }
  destruct (slice_prefix 30 n) as (_ & (tail & Htail) & _).
  assert (Hcell : nameCell p = slice n 0 30).
  { unfold nameCell. rewrite Hn. reflexivity. }
  assert (Hcellspace : hasSpace (nameCell p) = false).
  { rewrite Hcell. apply (hasSpace_prefix _ tail). rewrite <- Htail.
    exact Hspace. }
  exists (rowOf p). split; [|split].
  - rewrite Hw, publish_shown. cbn [shown tableData mbind option_bind data].
    change (map rowOf outs) with (rowOf <$> outs).
    rewrite list_lookup_fmap, Hout. reflexivity.
  - intros now'. symmetry. apply summaryRow_rowOf.
  - rewrite Hstats, <- (summaryRow_rowOf 0 p).
    rewrite (selectedName_row 0 p stages Hstages Hcellspace).
    apply findPipeline_unique.
    + intros q Hq. destruct (Hfrom q Hq) as (j & pp' & Hj). eauto.
    + apply list_elem_of_In, list_elem_of_lookup. eauto.
    + exists n, tail. split; [exact Hn|]. rewrite Hcell. exact Htail.
    + intros q m tail' Hq Hm Hmt. destruct (Hfrom q Hq) as (j & pp' & Hj).
      eauto.
Qed.

End RowToPipeline.


Lemma published_rows_witness :
  watched listing
  = Some [listed "integration-a"; listed "Integration-B";
          listed "integration-d"] /\
  promise (run (fetchPipelines initialDashboard) allAnswered) = Published /\
  exists outs,
    length outs
    = length [listed "integration-a"; listed "Integration-B";
              listed "integration-d"] /\
    (forall i pp,
       [listed "integration-a"; listed "Integration-B";
        listed "integration-d"] !! i = Some pp ->
       exists out now,
         outs !! i = Some out /\
         In (now, DetailsResolved i out) (tl allAnswered) /\
         tasks (run (fetchPipelines initialDashboard) allAnswered) !! i
         = Some (Fulfilled pp out)) /\
    getStats (dash (run (fetchPipelines initialDashboard) allAnswered)) = outs /\
    (data <$> tableData (dash (run (fetchPipelines initialDashboard) allAnswered)))
    = Some (map rowOf outs).
Proof.
  assert (Hw : watched listing
               = Some [listed "integration-a"; listed "Integration-B";
                       listed "integration-d"]) by reflexivity.
  assert (Hp : promise (run (fetchPipelines initialDashboard) allAnswered)
               = Published) by (vm_compute; reflexivity).
  split; [exact Hw|]. split; [exact Hp|].
  exact (published_rows_follow_the_list initialDashboard 100 listing _
           (tl allAnswered) _ Hw eq_refl Hp).
Defined.

Lemma publication_witness :
  reachable initialDashboard (run (fetchPipelines initialDashboard) allAnswered) /\
  promise (run (fetchPipelines initialDashboard) allAnswered) = Published /\
  (exists pre,
     trace (run (fetchPipelines initialDashboard) allAnswered)
     = (pre ++ [EvTableSet "stats"; EvDebug; EvSetData])%list /\
     ~ In EvSetData pre) /\
  (forall answers,
     run (run (fetchPipelines initialDashboard) allAnswered) answers
     = run (fetchPipelines initialDashboard) allAnswered).
Proof.
  assert (Hr : reachable initialDashboard
                 (run (fetchPipelines initialDashboard) allAnswered))
    by (apply run_reachable, reach_call).
  split; [exact Hr|]. split; [reflexivity|].
  exact (publication_is_the_last_act _ _ Hr eq_refl).
Defined.

Lemma nothing_watched_witness :
  (forall ps pp,
     pipelines unrelated = Some ps -> In pp ps -> isWatched pp = false) /\
  step 500 (fetchPipelines earlier) (ListResolved unrelated)
  = Some {| dash := shown earlier [];
            promise := Published;
            tasks := [];
            trace := [EvListPipelines; EvTableSet "stats"; EvDebug; EvSetData] |}.
Proof.
  assert (Hnone : forall ps pp,
            pipelines unrelated = Some ps -> In pp ps -> isWatched pp = false).
  { intros ps pp [= <-] [<-|[<-|[<-|[]]]]; reflexivity. }
  split; [exact Hnone|].
  exact (nothing_watched_empties_the_table earlier 500 unrelated Hnone).
Defined.

Lemma refused_token_witness :
  reachable earlier (run (fetchPipelines earlier) tokenRefused) /\
  tasks (run (fetchPipelines earlier) tokenRefused) !! 1
  = Some (TokenFailed (listed "Integration-B") "limiter") /\
  (forall n, ~ In (EvGetPipelineState 1 n)
               (trace (run (fetchPipelines earlier) tokenRefused))) /\
  dash (run (fetchPipelines earlier) tokenRefused) = earlier /\
  ~ In EvSetData (trace (run (fetchPipelines earlier) tokenRefused)) /\
  exists e, promise (run (fetchPipelines earlier) tokenRefused) = Rejected e.
Proof.
  assert (Hr : reachable earlier (run (fetchPipelines earlier) tokenRefused))
    by (apply run_reachable, reach_call).
  split; [exact Hr|]. split; [reflexivity|].
  exact (refused_token_asks_no_details earlier _ 1 _ _ Hr eq_refl).
Defined.


Lemma one_burst_witness :
  watched listing
  = Some [listed "integration-a"; listed "Integration-B";
          listed "integration-d"] /\
  (exists rest,
     trace (run (fetchPipelines earlier) oneFails)
     = EvListPipelines :: ([removeToken 0; removeToken 1; removeToken 2] ++ rest)%list /\
     Forall (fun e => isTokenRequest e = false) rest) /\
  (forall i n,
     In (EvGetPipelineState i n) (trace (run (fetchPipelines earlier) oneFails)) ->
     exists pp,
       [listed "integration-a"; listed "Integration-B";
        listed "integration-d"] !! i = Some pp /\ n = name pp).
Proof.
  assert (Hw : watched listing
               = Some [listed "integration-a"; listed "Integration-B";
                       listed "integration-d"]) by reflexivity.
  split; [exact Hw|].
  exact (tokens_are_asked_in_one_burst earlier 200 listing _ (tl oneFails) _
           Hw eq_refl).
Defined.

Lemma published_row_witness :
  reachable initialDashboard (run (fetchPipelines initialDashboard) allAnswered) /\
  tasks (run (fetchPipelines initialDashboard) allAnswered) !! 0
  = Some (Fulfilled (listed "integration-a") broken) /\
  stageStates broken = Some (stagesOf broken) /\
  hasSpace "integration-a" = false /\
  exists row,
    (tableData (dash (run (fetchPipelines initialDashboard) allAnswered))
       ≫= fun td => data td !! 0) = Some row /\
    (forall now, row = summaryRow (mapPipeline now broken)) /\
    findPipeline (selectedName (rowContent row))
      (getStats (dash (run (fetchPipelines initialDashboard) allAnswered)))
    = Returned (Some broken).
Proof.
  assert (Hr : reachable initialDashboard
                 (run (fetchPipelines initialDashboard) allAnswered))
    by (apply run_reachable, reach_call).
  assert (Htasks : tasks (run (fetchPipelines initialDashboard) allAnswered)
                   = [Fulfilled (listed "integration-a") broken;
                      Fulfilled (listed "Integration-B") healthy;
                      Fulfilled (listed "integration-d") fresh])
    by (vm_compute; reflexivity).
  assert (Hp : promise (run (fetchPipelines initialDashboard) allAnswered)
               = Published) by (vm_compute; reflexivity).
  assert (Hi : tasks (run (fetchPipelines initialDashboard) allAnswered) !! 0
               = Some (Fulfilled (listed "integration-a") broken))
    by (rewrite Htasks; reflexivity).
  split; [exact Hr|]. split; [exact Hi|]. split; [reflexivity|].
  split; [reflexivity|].
  refine (published_row_opens_its_pipeline initialDashboard _ 0
            (listed "integration-a") broken (stagesOf broken) "integration-a"
            Hr Hp Hi eq_refl eq_refl eq_refl _ _).
  - intros j pp' q Hj. rewrite Htasks in Hj.
    destruct j as [|[|[|j]]]; try discriminate Hj;
      injection Hj as _ <-; eexists; reflexivity.
  - intros j pp' q m tail Hj Hm Hmt. rewrite Htasks in Hj.
    destruct j as [|[|[|j]]]; try discriminate Hj;
      injection Hj as _ <-; try reflexivity;
      injection Hm as <-; discriminate Hmt.
Defined.

(** ** Overlapping cycles *)

Section ProgramFacts.
Context `{Chalk} `{DateFns}.

(** The dashboard steers nothing: two states of a cycle with the same
    chain, promises and trace take the same steps. *)
Lemma step_control now w1 w2 a :
  control w1 = control w2 ->
  control <$> step now w1 a = control <$> step now w2 a.
Proof.
  destruct w1 as [d1 c1 ts1 tr1], w2 as [d2 c2 ts2 tr2].
  unfold control. cbn [promise tasks trace]. intros [= -> -> ->].
  destruct a as [output|err|i r|i err|i output|i err]; cbn [step promise tasks].
  - destruct c2; try reflexivity.
    destruct (watched output) as [ws|]; [|reflexivity].
    unfold settle. cbn [spawn emit setTasks setPromise promise tasks trace].
    destruct (allFulfilled (map AwaitToken ws)); reflexivity.
  - destruct c2; reflexivity.
  - destruct (ts2 !! i) as [[pp|pp|pp out|pp e|pp e]|]; reflexivity.
  - destruct (ts2 !! i) as [[pp|pp|pp out|pp e|pp e]|]; try reflexivity.
    unfold reject. cbn [advance emit setTasks promise].
    destruct c2; reflexivity.
  - destruct (ts2 !! i) as [[pp|pp|pp out|pp e|pp e]|]; try reflexivity.
    unfold settle. cbn [advance emit setTasks promise tasks].
    destruct c2; try reflexivity.
    destruct (allFulfilled _); reflexivity.
  - destruct (ts2 !! i) as [[pp|pp|pp out|pp e|pp e]|]; try reflexivity.
    unfold reject. cbn [advance emit setTasks promise].
    destruct c2; reflexivity.
Qed.

(** A settlement leaves the dashboard alone or publishes on it the
    answers of its cycle. *)
Lemma step_board now w a w' :
  step now w a = Some w' ->
  dash w' = dash w \/
  promise w' = Published /\
  exists outs,
    dash w' = shown (dash w) outs /\
    (allFulfilled (tasks w') = Some outs \/
     outs = [] /\ promise w = AwaitList /\ tasks w' = tasks w).
Proof.
  assert (Hsettle : forall w1,
    dash (settle now w1) = dash w1 \/
    promise (settle now w1) = Published /\
    exists outs,
      dash (settle now w1) = shown (dash w1) outs /\
      (allFulfilled (tasks (settle now w1)) = Some outs \/
       outs = [] /\ promise w = AwaitList /\ tasks (settle now w1) = tasks w)).
  { intros w1. unfold settle. destruct (promise w1); auto.
    destruct (allFulfilled (tasks w1)) as [outs|] eqn:Hall; auto.
    right. split; [reflexivity|]. exists outs.
    split; [apply publish_shown | left; exact Hall]. }
  assert (Hreject : forall err w1, dash (reject err w1) = dash w1).
  { intros err w1. unfold reject. destruct (promise w1); reflexivity. }
  intros Hstep.
  destruct a as [output|err|i r|i err|i output|i err]; cbn [step] in Hstep.
  - destruct (promise w) eqn:Hp; try discriminate.
    destruct (watched output) as [ws|]; injection Hstep as <-.
    + apply (Hsettle (spawn ws w)).
    + right. split; [reflexivity|]. exists [].
      split; [apply publish_shown | right; auto].
  - destruct (promise w); try discriminate. injection Hstep as <-. auto.
  - settled Hstep Hi. auto.
  - settled Hstep Hi. left. rewrite Hreject. reflexivity.
  - settled Hstep Hi.
    apply (Hsettle (advance i (Fulfilled pp output) [EvDetailsResolved i] w)).
  - settled Hstep Hi. left. rewrite Hreject. reflexivity.
Qed.

(** Each cycle of the program is in a state of a cycle run alone, up to
    the dashboard. *)
Lemma cycle_simulated p k w :
  running p -> cycles p !! k = Some w ->
  exists d w0, reachable d w0 /\ control w0 = control w.
Proof.
  intros Hrun. revert k w.
  induction Hrun as [|now p o p' Hrun IH Hoccur]; intros k w Hk.
  - destruct k as [|k]; [|discriminate Hk]. injection Hk as <-.
    exists initialDashboard, (fetchPipelines initialDashboard).
    split; [apply reach_call | reflexivity].
  - destruct o as [|j a]; cbn [occur] in Hoccur.
    + injection Hoccur as <-. cbn [tick cycles] in Hk.
      apply lookup_app_Some in Hk. destruct Hk as [Hk|(_ & Hk)].
      * apply (IH k w Hk).
      * destruct (k - length (cycles p)) as [|k']; [|discriminate Hk].
        injection Hk as <-.
        exists (board p), (fetchPipelines (board p)).
        split; [apply reach_call | reflexivity].
    + unfold settleIn in Hoccur.
      destruct (cycles p !! j) as [wj|] eqn:Hj; [|discriminate].
      destruct (step now (setDash (board p) wj) a) as [wj'|] eqn:Hstep;
        [|discriminate].
      injection Hoccur as <-. cbn [cycles] in Hk.
      destruct (decide (j = k)) as [->|Hne].
      * rewrite list_lookup_insert_eq in Hk
          by (eapply lookup_lt_Some; eassumption).
        injection Hk as <-.
        destruct (IH k wj Hj) as (d & w0 & Hr & Hc).
        pose proof (step_control now w0 (setDash (board p) wj) a Hc) as Hsame.
        rewrite Hstep in Hsame.
        destruct (step now w0 a) as [w0'|] eqn:Hstep0; [|discriminate Hsame].
        injection Hsame as Hp Ht Htr.
        exists d, w0'. split; [eapply reach_step; eassumption|].
        unfold control. congruence.
      * rewrite list_lookup_insert_ne in Hk by assumption.
        apply (IH k w Hk).
Qed.

(** However the cycles overlap, each of them goes through the states of
    a cycle run alone: it has the chain, the promises and the trace of a
    state of a single cycle, and so asks for its tokens and its details
    as a single cycle does. *)
Theorem every_cycle_runs_as_if_alone p k w :
  running p -> cycles p !! k = Some w ->
  exists d w0,
    reachable d w0 /\
    promise w0 = promise w /\ tasks w0 = tasks w /\ trace w0 = trace w.
Proof.
  intros Hrun Hk.
  destruct (cycle_simulated p k w Hrun Hk) as (d & w0 & Hr & Hc).
  unfold control in Hc. injection Hc as Hp Ht Htr.
  exists d, w0. auto.
Qed.

(** [tracked] is [running] with a ledger. *)
Lemma tracked_running p g : tracked p g -> running p.
Proof.
  induction 1 as [|now p g o p' _ IH Hoccur].
  - apply running_startup.
  - eapply running_occur; eassumption.
Qed.

Lemma running_tracked p : running p -> exists g, tracked p g.
Proof.
  induction 1 as [|now p o p' _ (g & IH) Hoccur].
  - exists [None]. apply tracked_startup.
  - exists (note o g). eapply tracked_occur; eassumption.
Qed.

(** A cycle of the program that waits for its list has no promise. *)
Lemma cycle_waits_empty p k w :
  running p -> cycles p !! k = Some w ->
  promise w = AwaitList -> tasks w = [].
Proof.
  intros Hrun Hk Hp.
  destruct (cycle_simulated p k w Hrun Hk) as (d & w0 & Hr & Hc).
  unfold control in Hc. injection Hc as Hp0 Ht0 _.
  destruct (reachable_invariant d w0 Hr) as [_ _ _ Hstate].
  rewrite Hp0, Hp in Hstate. destruct Hstate as (Hnil & _). congruence.
Qed.

(** A published cycle of the program waits for nothing. *)
Lemma cycle_published_is_final p k w now b a :
  running p -> cycles p !! k = Some w ->
  promise w = Published -> step now (setDash b w) a = None.
Proof.
  intros Hrun Hk Hp.
  destruct (cycle_simulated p k w Hrun Hk) as (d & w0 & Hr & Hc).
  assert (Hc' : control w0 = control (setDash b w)) by exact Hc.
  pose proof (step_control now w0 (setDash b w) a Hc') as Hsame.
  unfold control in Hc. injection Hc as Hp0 _ _.
  rewrite (published_is_final d now w0 a (reachable_invariant d w0 Hr))
    in Hsame by congruence.
  destruct (step now (setDash b w) a); [discriminate Hsame | reflexivity].
Qed.

(** The ledger is as long as the list of cycles, and the promises of
    each cycle stand for the watched pipelines of the answer it has
    received. *)
Lemma tracked_summaries p g :
  tracked p g ->
  length g = length (cycles p) /\
  forall k w received,
    cycles p !! k = Some w -> g !! k = Some received ->
    map taskSummary (tasks w) = watchedOf received.
Proof.
  induction 1 as [|now p g o p' Htr (Hlen & IH) Hoccur].
  - split; [reflexivity|]. intros [|k] w received Hk Hg; try discriminate.
    injection Hk as <-. injection Hg as <-. reflexivity.
  - destruct o as [|j a]; cbn [occur] in Hoccur.
    + injection Hoccur as <-. cbn [tick cycles note]. split.
      * rewrite !length_app, Hlen. reflexivity.
      * intros k w received Hk Hg.
        apply lookup_app_Some in Hk. destruct Hk as [Hk|(Hge & Hk)].
        -- rewrite lookup_app_l in Hg
             by (rewrite Hlen; eapply lookup_lt_Some; eassumption).
           apply (IH k w received Hk Hg).
        -- rewrite lookup_app_r in Hg by (rewrite Hlen; exact Hge).
           rewrite Hlen in Hg.
           destruct (k - length (cycles p)) as [|k']; [|discriminate Hk].
           injection Hk as <-. injection Hg as <-. reflexivity.
    + unfold settleIn in Hoccur.
      destruct (cycles p !! j) as [wj|] eqn:Hj; [|discriminate].
      destruct (step now (setDash (board p) wj) a) as [wj'|] eqn:Hstep;
        [|discriminate].
      injection Hoccur as <-. cbn [cycles].
      assert (Hjg : j < length g).
      { rewrite Hlen. eapply lookup_lt_Some; eassumption. }
      assert (Hstart : promise (setDash (board p) wj) = AwaitList ->
                       tasks (setDash (board p) wj) = []).
      { apply (cycle_waits_empty p j wj (tracked_running p g Htr) Hj). }
      destruct (step_summaries now _ a wj' Hstart Hstep) as (_ & Hsum).
      split.
      * rewrite length_insert.
        destruct a; cbn [note]; rewrite ?length_insert; exact Hlen.
      * intros k w received Hk Hg.
        destruct (decide (j = k)) as [->|Hne].
        -- rewrite list_lookup_insert_eq in Hk
             by (eapply lookup_lt_Some; eassumption).
           injection Hk as <-. rewrite Hsum.
           destruct a; cbn [note] in Hg;
             try (cbn [setDash tasks]; apply (IH k wj received Hj Hg)).
           rewrite list_lookup_insert_eq in Hg by exact Hjg.
           injection Hg as <-. reflexivity.
        -- rewrite list_lookup_insert_ne in Hk by assumption.
           apply (IH k w received Hk).
           destruct a; cbn [note] in Hg; try exact Hg.
           rewrite list_lookup_insert_ne in Hg by assumption. exact Hg.
Qed.

(** A cycle that has received no list answer has not published. *)
Lemma tracked_received p g :
  tracked p g ->
  forall k w,
    cycles p !! k = Some w -> g !! k = Some None ->
    promise w = AwaitList \/ exists err, promise w = Rejected err.
Proof.
  induction 1 as [|now p g o p' Htr IH Hoccur].
  - intros [|k] w Hk Hg; try discriminate.
    injection Hk as <-. left. reflexivity.
  - destruct (tracked_summaries p g Htr) as (Hlen & Hsum).
    destruct o as [|j a]; cbn [occur] in Hoccur.
    + injection Hoccur as <-. cbn [tick cycles note].
      intros k w Hk Hg.
      apply lookup_app_Some in Hk. destruct Hk as [Hk|(Hge & Hk)].
      * rewrite lookup_app_l in Hg
          by (rewrite Hlen; eapply lookup_lt_Some; eassumption).
        apply (IH k w Hk Hg).
      * destruct (k - length (cycles p)) as [|k']; [|discriminate Hk].
        injection Hk as <-. left. reflexivity.
    + unfold settleIn in Hoccur.
      destruct (cycles p !! j) as [wj|] eqn:Hj; [|discriminate].
      destruct (step now (setDash (board p) wj) a) as [wj'|] eqn:Hstep;
        [|discriminate].
      injection Hoccur as <-. cbn [cycles].
      assert (Hjg : j < length g).
      { rewrite Hlen. eapply lookup_lt_Some; eassumption. }
      intros k w Hk Hg.
      destruct (decide (j = k)) as [->|Hne].
      * rewrite list_lookup_insert_eq in Hk
          by (eapply lookup_lt_Some; eassumption).
        injection Hk as <-.
        assert (Hbefore : g !! k = Some None).
        { destruct a; cbn [note] in Hg; try exact Hg.
          rewrite list_lookup_insert_eq in Hg by exact Hjg.
          discriminate Hg. }
        pose proof (Hsum k wj None Hj Hbefore) as Hnil.
        apply map_eq_nil in Hnil.
        destruct a as [output|err|i r|i err|i output|i err];
          cbn [step setDash tasks promise] in Hstep;
          rewrite ?Hnil, ?lookup_nil in Hstep; try discriminate Hstep.
        -- cbn [note] in Hg.
           rewrite list_lookup_insert_eq in Hg by exact Hjg.
           discriminate Hg.
        -- destruct (promise wj); try discriminate Hstep.
           injection Hstep as <-. right. exists err. reflexivity.
      * rewrite list_lookup_insert_ne in Hk by assumption.
        apply (IH k w Hk).
        destruct a; cbn [note] in Hg; try exact Hg.
        rewrite list_lookup_insert_ne in Hg by assumption. exact Hg.
Qed.

(** What a settlement does to the dashboard of the program. *)
Lemma settlement_publishes p g now k a p' :
  tracked p g -> settleIn now k a p = Some p' ->
  board p' = board p \/
  exists w' output outs,
    cycles p' !! k = Some w' /\
    note (Settle k a) g !! k = Some (Some output) /\
    promise w' = Published /\
    map taskSummary (tasks w') = watchedOf (Some output) /\
    Forall2 (fun t out => fulfilment t = Some out) (tasks w') outs /\
    board p' = shown (board p) outs.
Proof.
  intros Htr Hsettle.
  assert (Htr' : tracked p' (note (Settle k a) g)).
  { eapply tracked_occur; [exact Htr | exact Hsettle]. }
  pose proof (tracked_running p g Htr) as Hrun.
  destruct (tracked_summaries p' _ Htr') as (Hlen' & Hsum').
  unfold settleIn in Hsettle.
  destruct (cycles p !! k) as [wk|] eqn:Hk; [|discriminate].
  destruct (step now (setDash (board p) wk) a) as [wk'|] eqn:Hstep;
    [|discriminate].
  injection Hsettle as <-. cbn [board cycles] in *.
  destruct (step_board now _ a wk' Hstep) as [Hd|(Hp & outs & Hd & Houts)];
    [left; exact Hd|].
  right.
  assert (Hk' : <[k := wk']> (cycles p) !! k = Some wk').
  { apply list_lookup_insert_eq. eapply lookup_lt_Some; eassumption. }
  destruct (note (Settle k a) g !! k) as [received|] eqn:Hg.
  2:{ apply lookup_ge_None in Hg. apply lookup_lt_Some in Hk'. lia. }
  destruct received as [output|].
  2:{ destruct (tracked_received _ _ Htr' k wk' Hk' Hg) as [Hq|(err & Hq)];
        cbn [cycles] in *; congruence. }
  exists wk', output, outs. split; [exact Hk'|]. split; [reflexivity|].
  split; [exact Hp|]. split; [apply (Hsum' k wk' (Some output) Hk' Hg)|].
  split; [|exact Hd].
  assert (Hall : allFulfilled (tasks wk') = Some outs).
  { destruct Houts as [Hall|(-> & Hlist & Htasks)]; [exact Hall|].
    rewrite Htasks. cbn [setDash tasks promise] in *.
    rewrite (cycle_waits_empty p k wk Hrun Hk Hlist). reflexivity. }
  unfold allFulfilled in Hall. apply mapM_Some in Hall. exact Hall.
Qed.

(** The table and the store always agree, and on one whole cycle.
    However the cycles overlap, either nothing was ever published, or
    some cycle has published and the answers stored are the answers its
    promises were fulfilled with, one for each watched pipeline of the
    list answer this cycle received, in the order of the list, and the
    rows shown are the rows of these answers: never a mix of two
    cycles. *)
Theorem table_and_store_agree p g :
  tracked p g ->
  (tableData (board p) = None /\ store (board p) !! "stats" = None) \/
  exists k w' output outs,
    cycles p !! k = Some w' /\ g !! k = Some (Some output) /\
    promise w' = Published /\
    map taskSummary (tasks w') = watchedOf (Some output) /\
    Forall2 (fun t out => fulfilment t = Some out) (tasks w') outs /\
    store (board p) !! "stats" = Some outs /\
    tableData (board p)
    = Some {| headers := ["Pipeline"; "Status"]; data := map rowOf outs |}.
Proof.
  induction 1 as [|now p g o p' Htr IH Hoccur].
  - left. split; reflexivity.
  - destruct o as [|j a]; cbn [occur] in Hoccur.
    + injection Hoccur as <-. cbn [tick board cycles note].
      destruct IH as [IH|(k & w' & received & outs & Hk & Hg & IH)];
        [left; exact IH|].
      right. exists k, w', received, outs.
      split; [apply lookup_app_l_Some; exact Hk|].
      split; [apply lookup_app_l_Some; exact Hg | exact IH].
    + destruct (settlement_publishes p g now j a p' Htr Hoccur)
        as [Hsame|(w' & received & outs & Hk & Hg & Hp & Hsum & Hful & Hb)].
      * rewrite Hsame.
        destruct IH as [IH|(k & w' & received & outs & Hk & Hg & Hp & IH)];
          [left; exact IH|].
        right. exists k, w', received, outs.
        unfold settleIn in Hoccur.
        destruct (cycles p !! j) as [wj|] eqn:Hj; [|discriminate].
        destruct (step now (setDash (board p) wj) a) as [wj'|] eqn:Hstep;
          [|discriminate].
        injection Hoccur as <-. cbn [cycles].
        assert (Hne : j <> k).
        { intros ->. assert (wj = w') by congruence. subst wj.
          rewrite (cycle_published_is_final p k w' now (board p) a
                     (tracked_running p g Htr) Hk Hp) in Hstep.
          discriminate Hstep. }
        split; [rewrite list_lookup_insert_ne by exact Hne; exact Hk|].
        split; [|split; [exact Hp | exact IH]].
        destruct a; cbn [note]; try exact Hg.
        rewrite list_lookup_insert_ne by exact Hne. exact Hg.
      * right. exists j, w', received, outs.
        split; [exact Hk|]. split; [exact Hg|]. split; [exact Hp|].
        split; [exact Hsum|]. split; [exact Hful|].
        rewrite Hb. cbn [shown store tableData].
        rewrite lookup_insert_eq. split; reflexivity.
Qed.

(** The cycle that publishes last wins, whichever started first. A
    settlement leaves the dashboard as it is, or its cycle publishes:
    the answers its promises were fulfilled with, one for each watched
    pipeline of the list answer it received, replace the stored ones
    wholesale, and their rows replace the rows of the table, whatever a
    newer cycle had published before. *)
Theorem last_publication_wins p g now k a p' :
  tracked p g -> settleIn now k a p = Some p' ->
  board p' = board p \/
  exists w' output outs,
    cycles p' !! k = Some w' /\
    note (Settle k a) g !! k = Some (Some output) /\
    promise w' = Published /\
    map taskSummary (tasks w') = watchedOf (Some output) /\
    Forall2 (fun t out => fulfilment t = Some out) (tasks w') outs /\
    store (board p') = <["stats" := outs]> (store (board p)) /\
    tableData (board p')
    = Some {| headers := ["Pipeline"; "Status"]; data := map rowOf outs |} /\
    debugLog (board p') = (debugLog (board p) ++ [map rowOf outs])%list.
Proof.
  intros Htr Hsettle.
  destruct (settlement_publishes p g now k a p' Htr Hsettle)
    as [Hsame|(w' & received & outs & Hk & Hg & Hp & Hsum & Hful & Hb)];
    [left; exact Hsame|].
  right. exists w', received, outs. rewrite Hb.
  repeat (split; [assumption|]). repeat split.
Qed.

End ProgramFacts.

Lemma play_running `{Chalk} `{DateFns} answers : forall p,
  running p -> running (play p answers).
Proof.
  induction answers as [|[now o] answers IH]; intros p Hp; cbn [play].
  - exact Hp.
  - destruct (occur now p o) as [p'|] eqn:Ho.
    + apply IH. eapply running_occur; eassumption.
    + apply IH. exact Hp.
Qed.

Lemma alone_witness :
  running (play startup overtaking) /\
  exists w,
    cycles (play startup overtaking) !! 0 = Some w /\
    exists d w0,
      reachable d w0 /\
      promise w0 = promise w /\ tasks w0 = tasks w /\ trace w0 = trace w.
Proof.
  assert (Hrun : running (play startup overtaking))
    by (apply play_running, running_startup).
  split; [exact Hrun|]. eexists. split; [vm_compute; reflexivity|].
  apply (every_cycle_runs_as_if_alone (play startup overtaking) 0 _ Hrun).
  vm_compute. reflexivity.
Defined.

Lemma play_tracked `{Chalk} `{DateFns} answers : forall p g,
  tracked p g -> tracked (play p answers) (ledger p g answers).
Proof.
  induction answers as [|[now o] answers IH]; intros p g Hp; cbn [play ledger].
  - exact Hp.
  - destruct (occur now p o) as [p'|] eqn:Ho.
    + apply IH. eapply tracked_occur; eassumption.
    + apply IH. exact Hp.
Qed.

Lemma agree_witness :
  tracked (play startup overtaken) [Some shortList; Some shortList] /\
  store (board (play startup overtaken)) !! "stats" = Some [passing] /\
  ((tableData (board (play startup overtaken)) = None /\
    store (board (play startup overtaken)) !! "stats" = None) \/
   exists k w' output outs,
     cycles (play startup overtaken) !! k = Some w' /\
     [Some shortList; Some shortList] !! k = Some (Some output) /\
     promise w' = Published /\
     map taskSummary (tasks w') = watchedOf (Some output) /\
     Forall2 (fun t out => fulfilment t = Some out) (tasks w') outs /\
     store (board (play startup overtaken)) !! "stats" = Some outs /\
     tableData (board (play startup overtaken))
     = Some {| headers := ["Pipeline"; "Status"]; data := map rowOf outs |}).
Proof.
  assert (Htr : tracked (play startup overtaken)
                  [Some shortList; Some shortList]).
  { change [Some shortList; Some shortList]
      with (ledger startup [None] overtaken).
    apply play_tracked, tracked_startup. }
  split; [exact Htr|]. split; [vm_compute; reflexivity|].
  exact (table_and_store_agree (play startup overtaken) _ Htr).
Defined.

Lemma last_publication_witness :
  tracked (play startup overtaking) [Some shortList; Some shortList] /\
  getStats (board (play startup overtaking)) = [broken] /\
  settleIn 60004 0 (DetailsResolved 0 passing) (play startup overtaking)
  = Some (play startup overtaken) /\
  getStats (board (play startup overtaken)) = [passing] /\
  (board (play startup overtaken) = board (play startup overtaking) \/
   exists w' output outs,
     cycles (play startup overtaken) !! 0 = Some w' /\
     note (Settle 0 (DetailsResolved 0 passing))
       [Some shortList; Some shortList] !! 0 = Some (Some output) /\
     promise w' = Published /\
     map taskSummary (tasks w') = watchedOf (Some output) /\
     Forall2 (fun t out => fulfilment t = Some out) (tasks w') outs /\
     store (board (play startup overtaken))
     = <["stats" := outs]> (store (board (play startup overtaking))) /\
     tableData (board (play startup overtaken))
     = Some {| headers := ["Pipeline"; "Status"]; data := map rowOf outs |} /\
     debugLog (board (play startup overtaken))
     = (debugLog (board (play startup overtaking)) ++ [map rowOf outs])%list).
Proof.
  assert (Htr : tracked (play startup overtaking)
                  [Some shortList; Some shortList]).
  { change [Some shortList; Some shortList]
      with (ledger startup [None] overtaking).
    apply play_tracked, tracked_startup. }
  assert (Hlast : settleIn 60004 0 (DetailsResolved 0 passing)
                    (play startup overtaking)
                  = Some (play startup overtaken))
    by (vm_compute; reflexivity).
  split; [exact Htr|]. split; [vm_compute; reflexivity|].
  split; [exact Hlast|]. split; [vm_compute; reflexivity|].
  exact (last_publication_wins (play startup overtaking) _ 60004 0 _ _
           Htr Hlast).
Defined.
